(** * AeroChat Conversation Logger: ingestion endpoint and dispatcher

    A shallow embedding of
    - [api/log-event.ts]: the Vercel function that authenticates a request
      and inserts one row into [conversation_events];
    - the health probe handler that follows it in the same source file;
    - the DDL of [conversation_events];
    - the Python module [conversation_logger.py] ([_log_event], [fire_log])
      given in the implementation notes.

    Effects are explicit: each handler is a computation in a state monad
    over the part of the world it can touch. *)

From Stdlib Require Import String Ascii List ZArith Bool Lia DecimalString.
Import ListNotations.

Local Open Scope string_scope.

(** ** Computations over a world *)

(** A computation that reads and changes a world [W] and yields an [A]. *)
Definition Eff (W A : Type) : Type := W -> A * W.

Definition ret {W A : Type} (a : A) : Eff W A := fun w => (a, w).

Definition bind {W A B : Type} (c : Eff W A) (k : A -> Eff W B) : Eff W B :=
  fun w => let (a, w') := c w in k a w'.

Definition get {W : Type} : Eff W W := fun w => (w, w).

Definition put {W : Type} (w : W) : Eff W unit := fun _ => (tt, w).

Definition run {W A : Type} (c : Eff W A) (w : W) : A * W := c w.

Declare Scope eff_scope.
Delimit Scope eff_scope with eff.
Notation "x <- c ;; k" := (bind c (fun x => k))
  (at level 61, c at next level, right associativity) : eff_scope.
Notation "c ;; k" := (bind c (fun _ => k))
  (at level 61, right associativity) : eff_scope.
Local Open Scope eff_scope.

(** ** JavaScript values that come out of a JSON body *)

Module Json.

(** A parsed JSON document. Numbers are kept as integers: the only numeric
    column of the table is [INTEGER], and truthiness of a number only asks
    whether it is zero. An object lists its own properties; a lookup takes
    the first binding of the key. *)
#[local] Unset Elimination Schemes.
Inductive json : Type :=
| JNull
| JBool (b : bool)
| JNum (n : Z)
| JStr (s : string)
| JArr (items : list json)
| JObj (props : list (string * json)).
#[local] Set Elimination Schemes.

(** A JavaScript expression value: [None] is [undefined]. *)
Definition value : Type := option json.

(** ToBoolean: [undefined], [null], [false], [0] and the empty string are falsy;
    every object and every array, also an empty one, is truthy. *)
Definition truthy (v : value) : bool :=
  match v with
  | None => false
  | Some JNull => false
  | Some (JBool b) => b
  | Some (JNum n) => negb (n =? 0)%Z
  | Some (JStr s) => negb (s =? "")
  | Some (JArr _) => true
  | Some (JObj _) => true
  end.

Fixpoint assoc (k : string) (props : list (string * json)) : value :=
  match props with
  | [] => None
  | (k', v) :: rest => if k' =? k then Some v else assoc k rest
  end.

(** [e.k] for the keys the handler reads: a property of an object, and
    [undefined] on a string, number, boolean or array (none of the keys is
    a prototype property). On [undefined] and [null] the access throws; the
    handler guards every access with [!event ||]. *)
Definition prop (e : value) (k : string) : value :=
  match e with
  | Some (JObj props) => assoc k props
  | _ => None
  end.

(** [v || d] with a non-undefined right operand. *)
Definition or_else (v : value) (d : json) : json :=
  match v with
  | Some j => if truthy v then j else d
  | None => d
  end.

(** A property as it reaches the table: [JSON.stringify] leaves a property
    that is [undefined] out of the request, and a column the request does
    not name is read as [NULL] when it has no default. *)
Definition sent (v : value) : json :=
  match v with
  | Some j => j
  | None => JNull
  end.

(** Structural equality of documents. *)
Fixpoint eqb (a b : json) {struct a} : bool :=
  match a, b with
  | JNull, JNull => true
  | JBool x, JBool y => Bool.eqb x y
  | JNum x, JNum y => (x =? y)%Z
  | JStr x, JStr y => (x =? y)
  | JArr xs, JArr ys =>
      (fix all2 (xs ys : list json) {struct xs} : bool :=
         match xs, ys with
         | [], [] => true
         | x :: xs', y :: ys' => eqb x y && all2 xs' ys'
         | _, _ => false
         end) xs ys
  | JObj ps, JObj qs =>
      (fix all2 (ps qs : list (string * json)) {struct ps} : bool :=
         match ps, qs with
         | [], [] => true
         | (k, x) :: ps', (k', y) :: qs' => (k =? k') && eqb x y && all2 ps' qs'
         | _, _ => false
         end) ps qs
  | _, _ => false
  end.

End Json.
Import Json.

(** ** The ingestion endpoint, [api/log-event.ts] *)

Module LogEvent.

(** *** The table [conversation_events] *)

Record Row : Type := mkRow {
  event_id : json;
  conversation_id : json;
  merchant_id : json;
  direction : json;
  source : json;
  message : json;
  timestamp : json;
  intention : json;
  tagging : json;
  language : json;
  contextual_summary : json;
  working_context : json;
  memory_basket : json;
  retrieved_docs : json;
  filter_response : json;
  model_calls : json;
  response_time_ms : json;
  eval : json;
  metadata : json
}.

Inductive coltype : Type := TEXT | JSONB | TIMESTAMPTZ | INTEGER.

Record Column : Type := mkColumn {
  col_name : string;
  col_type : coltype;
  col_not_null : bool;
  col_value : Row -> json
}.

(** [CREATE TABLE conversation_events (...)], column by column. The primary
    key implies [NOT NULL]. *)
Definition conversation_events : list Column :=
  [ mkColumn "event_id" TEXT true event_id;
    mkColumn "conversation_id" TEXT true conversation_id;
    mkColumn "merchant_id" TEXT true merchant_id;
    mkColumn "direction" TEXT false direction;
    mkColumn "source" TEXT false source;
    mkColumn "message" JSONB false message;
    mkColumn "timestamp" TIMESTAMPTZ true timestamp;
    mkColumn "intention" TEXT false intention;
    mkColumn "tagging" JSONB false tagging;
    mkColumn "language" TEXT false language;
    mkColumn "contextual_summary" JSONB false contextual_summary;
    mkColumn "working_context" JSONB false working_context;
    mkColumn "memory_basket" JSONB false memory_basket;
    mkColumn "retrieved_docs" JSONB false retrieved_docs;
    mkColumn "filter_response" JSONB false filter_response;
    mkColumn "model_calls" JSONB false model_calls;
    mkColumn "response_time_ms" INTEGER false response_time_ms;
    mkColumn "eval" JSONB false eval;
    mkColumn "metadata" JSONB false metadata ].

(** The error object the Supabase client hands back. *)
Module PostgrestError.
Record t : Type := mk { code : string; message : string }.
End PostgrestError.

Definition Table : Type := list Row.

(** PostgreSQL puts identifiers of its messages between double quotes. *)
Definition quoted (s : string) : string :=
  String (ascii_of_nat 34) (s ++ String (ascii_of_nat 34) EmptyString).

(** [CHECK (c IN (...))]: a check constraint passes on [NULL]. *)
Definition check_in (allowed : list string) (v : json) : bool :=
  match v with
  | JNull => true
  | JStr s => existsb (String.eqb s) allowed
  | _ => false
  end.

Definition first_error {A : Type} (f : A -> option PostgrestError.t) (l : list A)
  : option PostgrestError.t :=
  fold_right (fun a rest => match f a with Some e => Some e | None => rest end) None l.

Definition not_null_error (row : Row) (c : Column) : option PostgrestError.t :=
  if col_not_null c then
    match col_value c row with
    | JNull =>
        Some (PostgrestError.mk "23502"
                ("null value in column " ++ quoted (col_name c) ++ " of relation "
                 ++ quoted "conversation_events" ++ " violates not-null constraint"))
    | _ => None
    end
  else None.

Definition check_error (name : string) (allowed : list string) (v : json)
  : option PostgrestError.t :=
  if check_in allowed v then None
  else Some (PostgrestError.mk "23514"
               ("new row for relation " ++ quoted "conversation_events"
                ++ " violates check constraint " ++ quoted name)).

Definition key_present (tbl : Table) (row : Row) : bool :=
  existsb (fun r => Json.eqb (event_id r) (event_id row)) tbl.

Definition unique_error (tbl : Table) (row : Row) : option PostgrestError.t :=
  if key_present tbl row then
    Some (PostgrestError.mk "23505"
            ("duplicate key value violates unique constraint "
             ++ quoted "conversation_events_pkey"))
  else None.

Definition or_error (a b : option PostgrestError.t) : option PostgrestError.t :=
  match a with Some e => Some e | None => b end.

(** *** What a request can touch

    The table, the calls made on the Supabase client, the function's
    console, and the clock that [new Date()] reads. *)
Record World : Type := mkWorld {
  table : Table;
  insert_calls : list Row;
  console : list (string * PostgrestError.t);
  clock : string
}.

Record VercelRequest : Type := mkRequest {
  method : option string;
  authorization : option string;
  body : value
}.

(** [res.status(s).json(p)] *)
Record VercelResponse : Type := mkResponse {
  status : Z;
  payload : json
}.

Section Endpoint.

(** The input conversion of a column type belongs to PostgreSQL, not to
    this repository: it is a parameter of the store. [None] accepts the
    value. *)
Variable pg_input : coltype -> json -> option PostgrestError.t.

(** [process.env.LOGGER_API_KEY!] *)
Variable LOGGER_API_KEY : string.

Definition input_error (row : Row) (c : Column) : option PostgrestError.t :=
  match col_value c row with
  | JNull => None
  | v => pg_input (col_type c) v
  end.

(** Why the table refuses a row, if it does: a value its column cannot
    take, then [NOT NULL], then the two [CHECK] constraints, then the
    primary key. *)
Definition violation (tbl : Table) (row : Row) : option PostgrestError.t :=
  or_error (first_error (input_error row) conversation_events)
    (or_error (first_error (not_null_error row) conversation_events)
       (or_error (check_error "conversation_events_direction_check"
                    ["inbound"; "outbound"] (direction row))
          (or_error (check_error "conversation_events_source_check"
                       ["customer"; "bot"; "human_agent"; "system"] (source row))
             (unique_error tbl row)))).

(** [supabase.from("conversation_events").insert(row)]: one row, taken
    whole or refused whole. *)
Definition supabase_insert (row : Row) : Eff World (option PostgrestError.t) :=
  w <- get ;;
  let error := violation (table w) row in
  let stored := match error with
                | Some _ => table w
                | None => (table w ++ [row])%list
                end in
  put (mkWorld stored (insert_calls w ++ [row])%list (console w) (clock w)) ;;
  ret error.

(** [console.error(label, error)] *)
Definition console_error (label : string) (e : PostgrestError.t) : Eff World unit :=
  w <- get ;;
  put (mkWorld (table w) (insert_calls w) (console w ++ [(label, e)])%list (clock w)).

(** [new Date().toISOString()] *)
Definition toISOString : Eff World json :=
  w <- get ;; ret (JStr (clock w)).

Definition error_payload (msg : string) : json := JObj [("error", JStr msg)].

(** [!authHeader || authHeader !== `Bearer ${LOGGER_API_KEY}`] *)
Definition unauthorized (authHeader : option string) : bool :=
  match authHeader with
  | None => true
  | Some h => (h =? "") || negb (h =? "Bearer " ++ LOGGER_API_KEY)
  end.

(** [!event || !event.event_id || !event.conversation_id || !event.merchant_id] *)
Definition missing_required (event : value) : bool :=
  negb (truthy event) || negb (truthy (prop event "event_id"))
  || negb (truthy (prop event "conversation_id"))
  || negb (truthy (prop event "merchant_id")).

(** The object literal passed to [insert]. [now] stands for
    [new Date().toISOString()], which the literal only uses when
    [event.timestamp] is falsy. *)
Definition row_of (event : value) (now : json) : Row :=
  {| event_id := sent (prop event "event_id");
     conversation_id := sent (prop event "conversation_id");
     merchant_id := sent (prop event "merchant_id");
     direction := or_else (prop event "direction") JNull;
     source := or_else (prop event "source") JNull;
     message := or_else (prop event "message") JNull;
     timestamp := or_else (prop event "timestamp") now;
     intention := or_else (prop event "intention") JNull;
     tagging := or_else (prop event "tagging") JNull;
     language := or_else (prop event "language") JNull;
     contextual_summary := or_else (prop event "contextual_summary") JNull;
     working_context := or_else (prop event "working_context") JNull;
     memory_basket := or_else (prop event "memory_basket") JNull;
     retrieved_docs := or_else (prop event "retrieved_docs") JNull;
     filter_response := or_else (prop event "filter_response") JNull;
     model_calls := or_else (prop event "model_calls") JNull;
     response_time_ms := or_else (prop event "response_time_ms") JNull;
     eval := or_else (prop event "eval") JNull;
     metadata := or_else (prop event "metadata") JNull |}.

Definition handler (req : VercelRequest) : Eff World VercelResponse :=
  (* Only accept POST *)
  if negb (match method req with Some m => m =? "POST" | None => false end) then
    ret (mkResponse 405 (error_payload "Method not allowed"))
  else
    (* Authenticate *)
    let authHeader := authorization req in
    if unauthorized authHeader then
      ret (mkResponse 401 (error_payload "Unauthorized"))
    else
      (* Validate required fields *)
      let event := body req in
      if missing_required event then
        ret (mkResponse 400
               (error_payload
                  "Missing required fields: event_id, conversation_id, merchant_id"))
      else
        (* Insert into Supabase *)
        now <- toISOString ;;
        error <- supabase_insert (row_of event now) ;;
        match error with
        | Some e =>
            console_error "Supabase write failed:" e ;;
            ret (mkResponse 500 (error_payload (PostgrestError.message e)))
        | None => ret (mkResponse 200 (JObj [("ok", JBool true)]))
        end.

End Endpoint.

End LogEvent.

(** ** The health probe *)

Module HealthProbe.

Import LogEvent.

(** The handler reads nothing of [req] and touches nothing. *)
Definition handler {W : Type} (req : VercelRequest) : Eff W VercelResponse :=
  ret (mkResponse 200
         (JObj [("service", JStr "AeroChat Conversation Logger");
                ("status", JStr "running");
                ("endpoint", JStr "POST /api/log-event")])).

End HealthProbe.

(** ** The dispatcher, [conversation_logger.py] *)

Module ConversationLogger.

(** [os.getenv] yields [None] for a variable that is not set. *)
Record Config : Type := mkConfig {
  LOGGER_ENDPOINT : option string;
  LOGGER_API_KEY : option string
}.

(** Python truth value of [os.getenv(...)]: [None] and the empty string are
    false. *)
Definition truth (v : option string) : bool :=
  match v with
  | None => false
  | Some s => negb (s =? "")
  end.

(** The value as an f-string renders it. [_log_event] gets there only with
    both variables set. *)
Definition text (v : option string) : string :=
  match v with
  | None => "None"
  | Some s => s
  end.

(** The exception classes that matter to the two [except] clauses. *)
Inductive ExcClass : Type :=
| TimeoutException                  (* httpx.TimeoutException and its subclasses *)
| ConnectError                      (* httpx.ConnectError *)
| TypeError                         (* the body cannot be serialised *)
| RuntimeError
| OtherException (name : string)    (* any other subclass of Exception *)
| BaseExceptionOnly (name : string) (* KeyboardInterrupt, SystemExit, CancelledError *).

Record PyExc : Type := mkExc {
  exc_class : ExcClass;
  exc_str : string
}.

(** [isinstance(e, httpx.TimeoutException)] *)
Definition is_TimeoutException (e : PyExc) : bool :=
  match exc_class e with
  | TimeoutException => true
  | _ => false
  end.

(** [isinstance(e, Exception)] *)
Definition is_Exception (e : PyExc) : bool :=
  match exc_class e with
  | BaseExceptionOnly _ => false
  | _ => true
  end.

(** How a call ends. *)
Inductive Outcome : Type :=
| Returned
| Raised (e : PyExc).

(** The arguments of [client.post] on an [AsyncClient(timeout=5.0)]. *)
Record HttpRequest : Type := mkHttpRequest {
  url : string;
  json_body : json;
  headers : list (string * string);
  timeout : Z
}.

(** What [await client.post(...)] comes back with. *)
Inductive Delivery : Type :=
| Responds (status_code : Z)
| Raises (e : PyExc).

(** The network and the endpoint behind it: the environment's answer to
    each request. *)
Definition Transport : Type := HttpRequest -> Delivery.

(** What the module can touch: the local log, the requests whose
    [client.post] has been awaited to its end, the tasks created on the
    running loop and not yet run, and whether the caller runs inside an
    event loop. *)
Record World : Type := mkWorld {
  log : list string;
  posts : list HttpRequest;
  tasks : list json;
  running_loop : bool
}.

(** [logger.warning(msg)] *)
Definition logger_warning (msg : string) : Eff World unit :=
  w <- get ;;
  put (mkWorld (log w ++ [msg])%list (posts w) (tasks w) (running_loop w)).

(** [await client.post(...)]: the coroutine goes on once the exchange has
    ended, with a response or with an exception. *)
Definition client_post (net : Transport) (rq : HttpRequest) : Eff World Delivery :=
  w <- get ;;
  put (mkWorld (log w) (posts w ++ [rq])%list (tasks w) (running_loop w)) ;;
  ret (net rq).

Definition decimal (n : Z) : string := NilZero.string_of_int (Z.to_int n).

Section Dispatcher.

Variable cfg : Config.
Variable net : Transport.

Definition request (event_data : json) : HttpRequest :=
  mkHttpRequest (text (LOGGER_ENDPOINT cfg)) event_data
    [("Authorization", "Bearer " ++ text (LOGGER_API_KEY cfg))] 5.

Definition _log_event (event_data : json) : Eff World Outcome :=
  if negb (truth (LOGGER_ENDPOINT cfg)) || negb (truth (LOGGER_API_KEY cfg)) then
    logger_warning
      "Conversation logger not configured: missing LOGGER_ENDPOINT or LOGGER_API_KEY" ;;
    ret Returned
  else
    (* try: *)
    response <- client_post net (request event_data) ;;
    match response with
    | Responds status_code =>
        if negb (status_code =? 200)%Z then
          logger_warning ("Conversation logger received status " ++ decimal status_code) ;;
          ret Returned
        else ret Returned
    | Raises e =>
        (* except httpx.TimeoutException: *)
        if is_TimeoutException e then
          logger_warning "Conversation logger timed out" ;;
          ret Returned
        (* except Exception as e: *)
        else if is_Exception e then
          logger_warning ("Conversation logger failed: " ++ exc_str e) ;;
          ret Returned
        else ret (Raised e)
    end.

(** [loop.create_task(_log_event(event_data))]: the coroutine is queued
    on the loop and the call returns at once. *)
Definition create_task (event_data : json) : Eff World unit :=
  w <- get ;;
  put (mkWorld (log w) (posts w) (tasks w ++ [event_data])%list (running_loop w)).

(** [asyncio.run(coro)]: a new loop runs the coroutine to its end; the
    call returns, or raises what the coroutine raised, only then. *)
Definition asyncio_run (coro : Eff World Outcome) : Eff World Outcome := coro.

Definition fire_log (event_data : json) : Eff World Outcome :=
  (* try: loop = asyncio.get_running_loop() *)
  w <- get ;;
  if running_loop w then
    create_task event_data ;;
    ret Returned
  else
    (* except RuntimeError: *)
    r <- asyncio_run (_log_event event_data) ;;
    match r with
    | Returned => ret Returned
    | Raised e =>
        (* except Exception: pass *)
        if is_Exception e then ret Returned else ret (Raised e)
    end.

(** One turn of the running loop: the oldest task runs to its end. What
    it raises stays in the task object. *)
Definition run_task : Eff World unit :=
  w <- get ;;
  match tasks w with
  | [] => ret tt
  | event_data :: rest =>
      put (mkWorld (log w) (posts w) rest (running_loop w)) ;;
      _log_event event_data ;;
      ret tt
  end.

End Dispatcher.

End ConversationLogger.

(** ** Sample data

    The requests of the example scenarios, and one store to run them on. *)

Module Samples.

Import LogEvent.

(** A store that takes a JSON string for [TEXT] and [TIMESTAMPTZ], a JSON
    number for [INTEGER], and any document for [JSONB]. *)
Definition strict_input (t : coltype) (v : json) : option PostgrestError.t :=
  match t, v with
  | TEXT, JStr _ => None
  | TIMESTAMPTZ, JStr _ => None
  | INTEGER, JNum _ => None
  | JSONB, _ => None
  | _, _ => Some (PostgrestError.mk "22P02" "invalid input syntax")
  end.

Definition secret : string := "s3cret".

Definition station (step model : string) (tokens_in tokens_out ms : Z) : json :=
  JObj [("step", JStr step); ("model", JStr model);
        ("prompt_sent", JStr "Classify the intention of the following message...");
        ("tokens_input", JNum tokens_in); ("tokens_output", JNum tokens_out);
        ("duration_ms", JNum ms)].

Definition calls_m1 : list json :=
  [ station "preprocessing_agent" "mistral.ministral-3-14b-instruct" 180 45 420;
    station "intention_agent" "mistral.ministral-3-14b-instruct" 245 12 380;
    station "a_station_added_later" "us.meta.llama4-maverick-17b-instruct-v1:0" 847 312 1670 ].

Definition event_m1 : json :=
  JObj [("event_id", JStr "m1"); ("conversation_id", JStr "c1");
        ("merchant_id", JStr "merch1"); ("direction", JStr "inbound");
        ("source", JStr "customer"); ("language", JStr "es-MX")].

Definition event_m2 : json :=
  JObj [("event_id", JStr "m2"); ("conversation_id", JStr "c1");
        ("merchant_id", JStr "merch1"); ("direction", JStr "outbound");
        ("source", JStr "bot"); ("model_calls", JArr calls_m1);
        ("response_time_ms", JNum 0)].

Definition event_without_merchant : json :=
  JObj [("event_id", JStr "m3"); ("conversation_id", JStr "c1")].

Definition post (b : json) : VercelRequest :=
  mkRequest (Some "POST") (Some "Bearer s3cret") (Some b).

Definition get_without_credential : VercelRequest :=
  mkRequest (Some "GET") None (Some event_m1).

Definition get_with_credential : VercelRequest :=
  mkRequest (Some "GET") (Some "Bearer s3cret") (Some event_m1).

Definition post_wrong_credential : VercelRequest :=
  mkRequest (Some "POST") (Some "Bearer wrong") (Some event_m1).

Definition now : string := "2026-02-25T10:00:00.000Z".

Definition empty_store : World := mkWorld [] [] [] now.

(** The store after [event_m1] went in. *)
Definition store_with_m1 : World :=
  snd (run (handler strict_input secret (post event_m1)) empty_store).

End Samples.

Module DispatcherSamples.

Import ConversationLogger.

Definition configured_env : Config :=
  mkConfig (Some "https://logger.example/api/log-event") (Some "s3cret").

Definition empty_env : Config := mkConfig None None.

(** An endpoint that does not answer within the five seconds. *)
Definition unreachable : Transport :=
  fun _ => Raises (mkExc TimeoutException "timed out").

(** An endpoint that refuses the connection. *)
Definition refusing : Transport :=
  fun _ => Raises (mkExc ConnectError "All connection attempts failed").

Definition event : json := Samples.event_m1.

(** The caller is synchronous code: no event loop is running. *)
Definition outside_loop : World := mkWorld [] [] [] false.

(** The caller is a coroutine of a running event loop. *)
Definition inside_loop : World := mkWorld [] [] [] true.

End DispatcherSamples.

(** ** The function over many requests, and the wire between the two sides *)

Module Server.

Import LogEvent.

Section Endpoint.

Variable pg_input : coltype -> json -> option PostgrestError.t.
Variable LOGGER_API_KEY : string.

(** One invocation of the function, at the instant [now]. *)
Definition invoke (now : string) (req : VercelRequest) : Eff World VercelResponse :=
  w <- get ;;
  put (mkWorld (table w) (insert_calls w) (console w) now) ;;
  handler pg_input LOGGER_API_KEY req.

(** The invocations of a deployment, one after the other, on the same
    table and console. *)
Fixpoint serve (reqs : list (string * VercelRequest)) : Eff World (list VercelResponse) :=
  match reqs with
  | [] => ret []
  | (now, req) :: rest =>
      r <- invoke now req ;;
      rs <- serve rest ;;
      ret (r :: rs)
  end.

End Endpoint.

End Server.

Module Wire.

Fixpoint header (name : string) (hs : list (string * string)) : option string :=
  match hs with
  | [] => None
  | (n, v) :: rest => if n =? name then Some v else header name rest
  end.

(** What [client.post(url, json=..., headers=...)] is on the side of the
    function: a POST whose [Authorization] header and JSON body are the
    ones given. *)
Definition received (rq : ConversationLogger.HttpRequest) : LogEvent.VercelRequest :=
  LogEvent.mkRequest (Some "POST")
    (header "Authorization" (ConversationLogger.headers rq))
    (Some (ConversationLogger.json_body rq)).

(** The function as the dispatcher's transport: the status it answers
    with on the table [w]. *)
Definition endpoint (pg_input : LogEvent.coltype -> json -> option LogEvent.PostgrestError.t)
  (secret : string) (w : LogEvent.World) : ConversationLogger.Transport :=
  fun rq =>
    ConversationLogger.Responds
      (LogEvent.status (fst (run (LogEvent.handler pg_input secret (received rq)) w))).

End Wire.

Module MoreSamples.

Import LogEvent.

(** [event_m1] with a key no column is named after. *)
Definition event_m1_with_debug : json :=
  JObj [("event_id", JStr "m1"); ("debug", JBool true); ("conversation_id", JStr "c1");
        ("merchant_id", JStr "merch1"); ("direction", JStr "inbound");
        ("source", JStr "customer"); ("language", JStr "es-MX")].


(** A body whose three identifiers are truthy and none of them a string. *)
Definition event_odd_ids : json :=
  JObj [("event_id", JBool true); ("conversation_id", JArr []);
        ("merchant_id", JObj [])].

(** A store whose input conversion takes every value for every column. *)
Definition accept_all (t : coltype) (v : json) : option PostgrestError.t := None.

Definition later : string := "2026-02-25T10:00:05.000Z".

(** [m1] three times and [m2] once, five seconds apart at the end. *)
Definition traffic : list (string * VercelRequest) :=
  [ (Samples.now, Samples.post Samples.event_m1);
    (Samples.now, Samples.post Samples.event_m1);
    (later, Samples.post Samples.event_m2);
    (later, Samples.post Samples.event_m1) ].

Definition response_time_ms_column : Column :=
  mkColumn "response_time_ms" INTEGER false response_time_ms.

End MoreSamples.

(** * Properties *)

(** ** JavaScript values *)

Module JsonFacts.

Lemma eqb_refl : forall j : json, Json.eqb j j = true.
Proof.
  fix IH 1. intros [ | b | n | s | items | props ]; simpl.
  - reflexivity.
  - apply Bool.eqb_reflx.
  - apply Z.eqb_refl.
  - apply String.eqb_refl.
  - induction items as [ | x xs IHxs ]; [ reflexivity | ].
    rewrite (IH x). exact IHxs.
  - induction props as [ | [k x] ps IHps ]; [ reflexivity | ].
    rewrite String.eqb_refl, (IH x). exact IHps.
Qed.

Lemma or_else_truthy (v d : json) : truthy (Some v) = true -> or_else (Some v) d = v.
Proof. unfold or_else. intros ->. reflexivity. Qed.

Lemma or_else_falsy (v : Json.value) (d : json) : truthy v = false -> or_else v d = d.
Proof. unfold or_else. destruct v; [ intros -> | ]; reflexivity. Qed.

Lemma sent_truthy (v : Json.value) (d : json) : truthy v = true -> sent v = or_else v d.
Proof.
  destruct v as [ j | ]; [ | discriminate ].
  intros H. now rewrite (or_else_truthy _ _ H).
Qed.

Lemma truthy_not_null (v : Json.value) (d : json) :
  truthy v = true -> or_else v d <> JNull.
Proof.
  destruct v as [ j | ]; [ | discriminate ].
  intros H. rewrite (or_else_truthy _ _ H). intros ->. discriminate.
Qed.

End JsonFacts.

(** ** The ingestion endpoint *)

Module Ingestion.

Import LogEvent.

Section Endpoint.

Variable pg_input : coltype -> json -> option PostgrestError.t.
Variable LOGGER_API_KEY : string.

(** The header a caller who knows the secret sends. *)
Definition bearer : string := "Bearer " ++ LOGGER_API_KEY.

Definition ok_payload : json := JObj [("ok", JBool true)].

(** The world after an insert of [row] that the table took or refused. *)
Definition after_insert (w : World) (row : Row) (error : option PostgrestError.t) : World :=
  match error with
  | None =>
      mkWorld (table w ++ [row])%list (insert_calls w ++ [row])%list (console w) (clock w)
  | Some e =>
      mkWorld (table w) (insert_calls w ++ [row])%list
        (console w ++ [("Supabase write failed:", e)])%list (clock w)
  end.

Lemma unauthorized_iff (h : option string) :
  unauthorized LOGGER_API_KEY h = false <-> h = Some bearer.
Proof.
  unfold LogEvent.unauthorized, bearer. destruct h as [ h | ]; [ | split; discriminate ].
  split.
  - intros H. apply Bool.orb_false_iff in H as [_ H].
    apply Bool.negb_false_iff, String.eqb_eq in H. now subst.
  - intros [= ->]. rewrite String.eqb_refl. reflexivity.
Qed.

Lemma run_not_post (req : VercelRequest) (w : World) :
  method req <> Some "POST" ->
  run (handler pg_input LOGGER_API_KEY req) w = (mkResponse 405 (error_payload "Method not allowed"), w).
Proof.
  intros H. unfold LogEvent.handler, run.
  destruct (method req) as [ m | ]; [ | reflexivity ].
  destruct (String.eqb_spec m "POST") as [ -> | _ ]; [ now elim H | reflexivity ].
Qed.

Lemma run_unauthorized (req : VercelRequest) (w : World) :
  method req = Some "POST" -> unauthorized LOGGER_API_KEY (authorization req) = true ->
  run (handler pg_input LOGGER_API_KEY req) w = (mkResponse 401 (error_payload "Unauthorized"), w).
Proof.
  intros Hm Ha. unfold LogEvent.handler, run. rewrite Hm, Ha. reflexivity.
Qed.

Lemma run_missing (req : VercelRequest) (w : World) :
  method req = Some "POST" -> unauthorized LOGGER_API_KEY (authorization req) = false ->
  missing_required (body req) = true ->
  run (handler pg_input LOGGER_API_KEY req) w =
    (mkResponse 400
       (error_payload "Missing required fields: event_id, conversation_id, merchant_id"),
     w).
Proof.
  intros Hm Ha Hb. unfold LogEvent.handler, run. rewrite Hm, Ha, Hb. reflexivity.
Qed.

Lemma run_insert (req : VercelRequest) (w : World) :
  method req = Some "POST" -> unauthorized LOGGER_API_KEY (authorization req) = false ->
  missing_required (body req) = false ->
  run (handler pg_input LOGGER_API_KEY req) w =
    (match violation pg_input (table w) (row_of (body req) (JStr (clock w))) with
     | Some e => mkResponse 500 (error_payload (PostgrestError.message e))
     | None => mkResponse 200 ok_payload
     end,
     after_insert w (row_of (body req) (JStr (clock w)))
       (violation pg_input (table w) (row_of (body req) (JStr (clock w))))).
Proof.
  intros Hm Ha Hb. unfold LogEvent.handler, run. rewrite Hm, Ha, Hb, String.eqb_refl.
  unfold toISOString, supabase_insert, console_error, bind, get, put, ret.
  cbn [negb table insert_calls console clock].
  destruct (violation pg_input (table w) (row_of (body req) (JStr (clock w))));
    reflexivity.
Qed.

(** *** What the table accepts *)

(** Every value of the row is one its column type can take. *)
Definition fits_columns (row : Row) : Prop :=
  Forall (fun c => input_error pg_input row c = None) conversation_events.

(** [direction] and [source] are null or one of the listed words. *)
Definition enums_ok (row : Row) : Prop :=
  check_in ["inbound"; "outbound"] (direction row) = true /\
  check_in ["customer"; "bot"; "human_agent"; "system"] (source row) = true.

Lemma first_error_none {A : Type} (f : A -> option PostgrestError.t) (l : list A) :
  Forall (fun a => f a = None) l -> first_error f l = None.
Proof.
  induction 1 as [ | a l Ha _ IH ]; simpl; [ reflexivity | ].
  rewrite Ha. exact IH.
Qed.

(** The rows the handler builds never break a [NOT NULL] constraint: the
    identifiers are truthy and [timestamp] falls back to the clock. *)
Lemma not_null_holds (event : Json.value) (now : string) :
  missing_required event = false ->
  first_error (not_null_error (row_of event (JStr now))) conversation_events = None.
Proof.
  unfold missing_required. intros H.
  repeat (apply Bool.orb_false_iff in H as [H ?]).
  repeat match goal with
         | Hx : negb _ = false |- _ => apply Bool.negb_false_iff in Hx
         end.
  assert (Hts : or_else (prop event "timestamp") (JStr now) <> JNull).
  { destruct (truthy (prop event "timestamp")) eqn:E.
    - now apply JsonFacts.truthy_not_null.
    - rewrite (JsonFacts.or_else_falsy _ _ E). discriminate. }
  pose proof (JsonFacts.truthy_not_null (prop event "event_id") JNull) as He.
  pose proof (JsonFacts.truthy_not_null (prop event "conversation_id") JNull) as Hc.
  pose proof (JsonFacts.truthy_not_null (prop event "merchant_id") JNull) as Hm.
  unfold first_error, conversation_events, not_null_error; simpl.
  rewrite (JsonFacts.sent_truthy (prop event "event_id") JNull),
    (JsonFacts.sent_truthy (prop event "conversation_id") JNull),
    (JsonFacts.sent_truthy (prop event "merchant_id") JNull) by assumption.
  destruct (or_else (prop event "event_id") JNull); try tauto;
    destruct (or_else (prop event "conversation_id") JNull); try tauto;
    destruct (or_else (prop event "merchant_id") JNull); try tauto;
    destruct (or_else (prop event "timestamp") (JStr now)); tauto.
Qed.

Lemma accepted (event : Json.value) (now : string) (tbl : Table) :
  missing_required event = false ->
  fits_columns (row_of event (JStr now)) ->
  enums_ok (row_of event (JStr now)) ->
  key_present tbl (row_of event (JStr now)) = false ->
  violation pg_input tbl (row_of event (JStr now)) = None.
Proof.
  intros Hreq Hfit [Hd Hs] Hkey. unfold violation.
  rewrite (first_error_none _ _ Hfit), (not_null_holds _ _ Hreq).
  unfold check_error, unique_error. rewrite Hd, Hs, Hkey. reflexivity.
Qed.

Lemma key_present_in (tbl : Table) (r row : Row) :
  In r tbl -> event_id r = event_id row -> key_present tbl row = true.
Proof.
  intros Hin Heq. unfold key_present. apply existsb_exists.
  exists r. split; [ exact Hin | ]. rewrite Heq. apply JsonFacts.eqb_refl.
Qed.

Lemma duplicate_refused (tbl : Table) (row : Row) :
  key_present tbl row = true -> exists e, violation pg_input tbl row = Some e.
Proof.
  intros Hkey. unfold violation, or_error, unique_error. rewrite Hkey.
  repeat match goal with
         | |- exists e, match ?x with Some _ => _ | None => _ end = Some e =>
             destruct x; [ eexists; reflexivity | ]
         end.
  eexists; reflexivity.
Qed.

(** *** The row and the body *)

(** What a column holds when the body says nothing for it. *)
Definition default_of (c : Column) (now : json) : json :=
  if col_name c =? "timestamp" then now else JNull.

(** The object literal reads each column from the key of the same name.
    The three identifiers are passed on as they are, which for a truthy
    value is what [||] does too. *)
Lemma row_of_column (event : Json.value) (now : json) :
  missing_required event = false ->
  Forall (fun c => col_value c (row_of event now)
                   = or_else (prop event (col_name c)) (default_of c now))
    conversation_events.
Proof.
  unfold missing_required. intros H.
  repeat (apply Bool.orb_false_iff in H as [H ?]).
  repeat match goal with
         | Hx : negb _ = false |- _ => apply Bool.negb_false_iff in Hx
         end.
  repeat constructor; cbn; now apply JsonFacts.sent_truthy.
Qed.

(** A column of [row] holds what [event] submitted for it: the value
    itself when it is truthy, the default when the key is absent or
    null. *)
Definition stored_as_submitted (event : Json.value) (now : json) (row : Row) (c : Column)
  : Prop :=
  (forall v, prop event (col_name c) = Some v -> truthy (Some v) = true ->
             col_value c row = v) /\
  (prop event (col_name c) = None \/ prop event (col_name c) = Some JNull ->
   col_value c row = default_of c now).

Lemma row_of_stored_as_submitted (event : Json.value) (now : json) :
  missing_required event = false ->
  Forall (stored_as_submitted event now (row_of event now)) conversation_events.
Proof.
  intros Hreq. eapply Forall_impl; [ | apply (row_of_column event now Hreq) ].
  intros c Hc. unfold stored_as_submitted. rewrite Hc. split.
  - intros v -> Hv. now apply JsonFacts.or_else_truthy.
  - intros [ -> | -> ]; reflexivity.
Qed.

(** A falsy value that is not null (zero, [false], the empty string) is
    replaced by the default as well. *)
Lemma falsy_replaced (event : Json.value) (now : json) :
  missing_required event = false ->
  Forall (fun c => truthy (prop event (col_name c)) = false ->
                   col_value c (row_of event now) = default_of c now)
    conversation_events.
Proof.
  intros Hreq. eapply Forall_impl; [ | apply (row_of_column event now Hreq) ].
  intros c Hc Hf. rewrite Hc. now apply JsonFacts.or_else_falsy.
Qed.

(** *** The four checks *)

Lemma option_eq_dec_post (m : option string) : m = Some "POST" \/ m <> Some "POST".
Proof.
  destruct m as [ m | ]; [ | right; discriminate ].
  destruct (String.eqb_spec m "POST") as [ -> | H ]; [ now left | right ].
  intros [= E]. now elim H.
Qed.

(** The body carries the three identifiers, each of them truthy. *)
Definition has_identifiers (event : Json.value) : Prop :=
  truthy (prop event "event_id") = true /\
  truthy (prop event "conversation_id") = true /\
  truthy (prop event "merchant_id") = true.

Definition required_fields : list string :=
  ["event_id"; "conversation_id"; "merchant_id"].

(** [hay.includes(needle)] *)
Fixpoint includes (needle hay : string) : bool :=
  String.prefix needle hay
  || match hay with
     | EmptyString => false
     | String _ rest => includes needle rest
     end.

Lemma has_identifiers_iff (event : Json.value) :
  has_identifiers event <-> missing_required event = false.
Proof.
  unfold has_identifiers, missing_required. split.
  - intros (He & Hc & Hm). rewrite He, Hc, Hm.
    destruct event as [ [ | | | | | props ] | ]; try discriminate He. reflexivity.
  - intros H. repeat (apply Bool.orb_false_iff in H as [H ?]).
    repeat match goal with
           | Hx : negb _ = false |- _ => apply Bool.negb_false_iff in Hx
           end.
    auto.
Qed.

Lemma lacks_identifiers (event : Json.value) :
  ~ has_identifiers event -> missing_required event = true.
Proof.
  intros H. destruct (missing_required event) eqn:E; [ reflexivity | ].
  elim H. now apply has_identifiers_iff.
Qed.

Lemma wrong_credential (h : option string) :
  h <> Some bearer -> unauthorized LOGGER_API_KEY h = true.
Proof.
  intros H. destruct (unauthorized LOGGER_API_KEY h) eqn:E; [ reflexivity | ].
  elim H. now apply unauthorized_iff.
Qed.

(** C1, as amended. A POST request with the right credential and a body
    whose three identifiers are truthy, whose row the table can take
    (values that fit their columns, [direction] and [source] null or
    listed, an [event_id] not yet in the table): the handler calls
    [insert] exactly once, the table gains exactly that row, nothing is
    written to the console, and the answer is 200 with [{ok: true}].
    In the row every column holds the submitted value when that value
    is truthy, and null (for [timestamp]: the current instant) when the
    key is absent or null. *)
Theorem valid_event_recorded_once (req : VercelRequest) (w : World) :
  method req = Some "POST" ->
  authorization req = Some bearer ->
  has_identifiers (body req) ->
  fits_columns (row_of (body req) (JStr (clock w))) ->
  enums_ok (row_of (body req) (JStr (clock w))) ->
  key_present (table w) (row_of (body req) (JStr (clock w))) = false ->
  exists row : Row,
    run (handler pg_input LOGGER_API_KEY req) w =
      (mkResponse 200 ok_payload,
       mkWorld (table w ++ [row])%list (insert_calls w ++ [row])%list
         (console w) (clock w)) /\
    Forall (stored_as_submitted (body req) (JStr (clock w)) row) conversation_events.
Proof.
  intros Hm Ha Hb Hfit Henum Hkey.
  apply unauthorized_iff in Ha. apply has_identifiers_iff in Hb.
  exists (row_of (body req) (JStr (clock w))). split.
  - rewrite (run_insert req w Hm Ha Hb), (accepted _ _ _ Hb Hfit Henum Hkey).
    reflexivity.
  - now apply row_of_stored_as_submitted.
Qed.

(** C2, as amended. A POST request whose [Authorization] header is
    missing or is not [Bearer <secret>] gets 401 with
    [{error: Unauthorized}], whatever its body, and the world is left as
    it was: no insert, no row, no console line. A request with another
    verb and such a header gets 405, and leaves the world as it was too. *)
Theorem bad_credential_refused (req : VercelRequest) (w : World) :
  authorization req <> Some bearer ->
  snd (run (handler pg_input LOGGER_API_KEY req) w) = w /\
  (method req = Some "POST" ->
   fst (run (handler pg_input LOGGER_API_KEY req) w)
   = mkResponse 401 (error_payload "Unauthorized")) /\
  (method req <> Some "POST" ->
   fst (run (handler pg_input LOGGER_API_KEY req) w)
   = mkResponse 405 (error_payload "Method not allowed")).
Proof.
  intros Ha. apply wrong_credential in Ha.
  destruct (option_eq_dec_post (method req)) as [ Hm | Hm ].
  - rewrite (run_unauthorized req w Hm Ha).
    split; [ reflexivity | split; intros H; [ reflexivity | now elim H ] ].
  - rewrite (run_not_post req w Hm).
    split; [ reflexivity | split; intros H; [ now elim Hm | reflexivity ] ].
Qed.

(** C3, as amended. An authenticated POST request whose body is absent, or is not an
    object, or lacks a truthy [event_id], [conversation_id] or
    [merchant_id], gets 400 and leaves the world as it was; the error
    message names each of the three required fields, so the missing
    ones among them. *)
Theorem missing_identifier_refused (req : VercelRequest) (w : World) :
  method req = Some "POST" ->
  authorization req = Some bearer ->
  ~ has_identifiers (body req) ->
  exists msg : string,
    run (handler pg_input LOGGER_API_KEY req) w
    = (mkResponse 400 (error_payload msg), w) /\
    forall k, In k required_fields -> includes k msg = true.
Proof.
  intros Hm Ha Hb. apply unauthorized_iff in Ha. apply lacks_identifiers in Hb.
  eexists. split; [ apply (run_missing req w Hm Ha Hb) | ].
  intros k [ <- | [ <- | [ <- | [] ] ] ]; reflexivity.
Qed.

(** C4. A request with any verb but POST, or with none, gets 405 with
    [{error: Method not allowed}] and leaves the world as it was;
    neither its header nor its body has a say in that. *)
Theorem other_verb_refused (req : VercelRequest) (w : World) :
  method req <> Some "POST" ->
  forall (h : option string) (b : Json.value),
    run (handler pg_input LOGGER_API_KEY (mkRequest (method req) h b)) w
    = (mkResponse 405 (error_payload "Method not allowed"), w).
Proof.
  intros Hm h b. now apply run_not_post.
Qed.


(** C6. An authenticated POST request with the three identifiers whose
    [model_calls] is an array, of any length and with any entries: the
    row handed to [insert] carries that very array, and when the table
    takes the row the table's new last row carries it. No entry is
    looked at on the way. *)
Theorem model_calls_round_trip (req : VercelRequest) (w : World) (calls : list json) :
  method req = Some "POST" ->
  authorization req = Some bearer ->
  has_identifiers (body req) ->
  prop (body req) "model_calls" = Some (JArr calls) ->
  exists row : Row,
    model_calls row = JArr calls /\
    insert_calls (snd (run (handler pg_input LOGGER_API_KEY req) w))
    = (insert_calls w ++ [row])%list /\
    (violation pg_input (table w) row = None ->
     run (handler pg_input LOGGER_API_KEY req) w =
       (mkResponse 200 ok_payload,
        mkWorld (table w ++ [row])%list (insert_calls w ++ [row])%list
          (console w) (clock w))).
Proof.
  intros Hm Ha Hb Hcalls. apply unauthorized_iff in Ha. apply has_identifiers_iff in Hb.
  exists (row_of (body req) (JStr (clock w))). split; [ | split ].
  - unfold row_of; cbn [model_calls]. rewrite Hcalls. reflexivity.
  - rewrite (run_insert req w Hm Ha Hb). unfold after_insert.
    destruct (violation pg_input (table w) (row_of (body req) (JStr (clock w))));
      reflexivity.
  - intros Hok. rewrite (run_insert req w Hm Ha Hb), Hok. reflexivity.
Qed.

(** C9. The checks run in the order verb, credential, body, insert, and
    the first that fails ends the request: without POST the answer is
    405 whatever the header and the body; with POST and a wrong or
    missing credential it is 401 whatever the body; with POST, the
    right credential and a body lacking an identifier it is 400; in
    these three cases the world is left as it was. Only a request that
    passes all three reaches [insert], once. *)
Theorem checks_in_order (req : VercelRequest) (w : World) :
  (method req <> Some "POST" ->
   run (handler pg_input LOGGER_API_KEY req) w
   = (mkResponse 405 (error_payload "Method not allowed"), w)) /\
  (method req = Some "POST" -> authorization req <> Some bearer ->
   run (handler pg_input LOGGER_API_KEY req) w
   = (mkResponse 401 (error_payload "Unauthorized"), w)) /\
  (method req = Some "POST" -> authorization req = Some bearer ->
   ~ has_identifiers (body req) ->
   run (handler pg_input LOGGER_API_KEY req) w
   = (mkResponse 400
        (error_payload "Missing required fields: event_id, conversation_id, merchant_id"),
      w)) /\
  (method req = Some "POST" -> authorization req = Some bearer ->
   has_identifiers (body req) ->
   insert_calls (snd (run (handler pg_input LOGGER_API_KEY req) w))
   = (insert_calls w ++ [row_of (body req) (JStr (clock w))])%list).
Proof.
  split; [ | split; [ | split ] ].
  - apply run_not_post.
  - intros Hm Ha. apply run_unauthorized; [ exact Hm | now apply wrong_credential ].
  - intros Hm Ha Hb. apply run_missing;
      [ exact Hm | now apply unauthorized_iff | now apply lacks_identifiers ].
  - intros Hm Ha Hb. apply unauthorized_iff in Ha. apply has_identifiers_iff in Hb.
    rewrite (run_insert req w Hm Ha Hb). unfold after_insert.
    destruct (violation pg_input (table w) (row_of (body req) (JStr (clock w))));
      reflexivity.
Qed.

End Endpoint.

(** *** The example scenarios *)

Import Samples.

Lemma event_m1_has_identifiers : has_identifiers (Some event_m1).
Proof. repeat split. Qed.

Lemma event_m2_has_identifiers : has_identifiers (Some event_m2).
Proof. repeat split. Qed.

Lemma event_without_merchant_lacks_one : ~ has_identifiers (Some event_without_merchant).
Proof. intros (_ & _ & H). discriminate H. Qed.

(** The inbound customer event [m1] goes into the empty table. *)
Lemma valid_event_recorded_once_witness :
  exists row : Row,
    run (handler strict_input secret (post event_m1)) empty_store =
      (mkResponse 200 ok_payload,
       mkWorld (table empty_store ++ [row])%list (insert_calls empty_store ++ [row])%list
         (console empty_store) (clock empty_store)) /\
    Forall (stored_as_submitted (Some event_m1) (JStr (clock empty_store)) row)
      conversation_events.
Proof.
  apply (valid_event_recorded_once strict_input secret (post event_m1) empty_store).
  - reflexivity.
  - reflexivity.
  - exact event_m1_has_identifiers.
  - repeat constructor.
  - split; reflexivity.
  - reflexivity.
Defined.

(** C1 as stated fails twice. The same valid event with the right
    credential, sent with GET, is answered 405 and nothing is inserted.
    And the valid event [m2], sent with POST, is stored with
    [response_time_ms] null although it submitted 0. *)
Lemma valid_event_not_always_recorded_as_sent :
  run (handler strict_input secret get_with_credential) empty_store
  = (mkResponse 405 (error_payload "Method not allowed"), empty_store) /\
  prop (Some event_m2) "response_time_ms" = Some (JNum 0) /\
  exists row : Row,
    run (handler strict_input secret (post event_m2)) empty_store
    = (mkResponse 200 ok_payload, mkWorld [row] [row] [] now) /\
    response_time_ms row = JNull.
Proof.
  split; [ reflexivity | split; [ reflexivity | ] ].
  exists (row_of (Some event_m2) (JStr now)). split; reflexivity.
Qed.

Lemma bad_credential_refused_witness :
  snd (run (handler strict_input secret post_wrong_credential) empty_store) = empty_store /\
  (method post_wrong_credential = Some "POST" ->
   fst (run (handler strict_input secret post_wrong_credential) empty_store)
   = mkResponse 401 (error_payload "Unauthorized")) /\
  (method post_wrong_credential <> Some "POST" ->
   fst (run (handler strict_input secret post_wrong_credential) empty_store)
   = mkResponse 405 (error_payload "Method not allowed")).
Proof.
  apply (bad_credential_refused strict_input secret post_wrong_credential empty_store).
  discriminate.
Defined.

(** C2 as stated fails on a request that is not a POST: a GET without any
    credential is answered 405, not 401. *)
Lemma bad_credential_not_always_401 :
  authorization get_without_credential = None /\
  run (handler strict_input secret get_without_credential) empty_store
  = (mkResponse 405 (error_payload "Method not allowed"), empty_store).
Proof. split; reflexivity. Qed.

Lemma missing_identifier_refused_witness :
  exists msg : string,
    run (handler strict_input secret (post event_without_merchant)) empty_store
    = (mkResponse 400 (error_payload msg), empty_store) /\
    forall k, In k required_fields -> includes k msg = true.
Proof.
  apply (missing_identifier_refused strict_input secret (post event_without_merchant)
           empty_store).
  - reflexivity.
  - reflexivity.
  - exact event_without_merchant_lacks_one.
Defined.

Lemma other_verb_refused_witness :
  run (handler strict_input secret (mkRequest (Some "GET") (Some "Bearer s3cret") None))
    store_with_m1
  = (mkResponse 405 (error_payload "Method not allowed"), store_with_m1).
Proof.
  apply (other_verb_refused strict_input secret get_without_credential store_with_m1).
  discriminate.
Defined.


Lemma model_calls_round_trip_witness :
  exists row : Row,
    model_calls row = JArr calls_m1 /\
    insert_calls (snd (run (handler strict_input secret (post event_m2)) empty_store))
    = (insert_calls empty_store ++ [row])%list /\
    (violation strict_input (table empty_store) row = None ->
     run (handler strict_input secret (post event_m2)) empty_store =
       (mkResponse 200 ok_payload,
        mkWorld (table empty_store ++ [row])%list (insert_calls empty_store ++ [row])%list
          (console empty_store) (clock empty_store))).
Proof.
  apply (model_calls_round_trip strict_input secret (post event_m2) empty_store calls_m1).
  - reflexivity.
  - reflexivity.
  - exact event_m2_has_identifiers.
  - reflexivity.
Defined.

(** One request for each of the four ways through the handler. *)
Lemma checks_in_order_witness :
  run (handler strict_input secret get_without_credential) empty_store
  = (mkResponse 405 (error_payload "Method not allowed"), empty_store) /\
  run (handler strict_input secret
         (mkRequest (Some "POST") (Some "Bearer wrong") (Some event_without_merchant)))
    empty_store
  = (mkResponse 401 (error_payload "Unauthorized"), empty_store) /\
  run (handler strict_input secret (post event_without_merchant)) empty_store
  = (mkResponse 400
       (error_payload "Missing required fields: event_id, conversation_id, merchant_id"),
     empty_store) /\
  insert_calls (snd (run (handler strict_input secret (post event_m1)) empty_store))
  = (insert_calls empty_store ++ [row_of (Some event_m1) (JStr (clock empty_store))])%list.
Proof.
  split; [ | split; [ | split ] ].
  - apply (proj1 (checks_in_order strict_input secret get_without_credential empty_store)).
    discriminate.
  - apply (proj1 (proj2 (checks_in_order strict_input secret
                           (mkRequest (Some "POST") (Some "Bearer wrong")
                              (Some event_without_merchant)) empty_store)));
      [ reflexivity | discriminate ].
  - apply (proj1 (proj2 (proj2 (checks_in_order strict_input secret
                                  (post event_without_merchant) empty_store))));
      [ reflexivity | reflexivity | exact event_without_merchant_lacks_one ].
  - apply (proj2 (proj2 (proj2 (checks_in_order strict_input secret
                                  (post event_m1) empty_store))));
      [ reflexivity | reflexivity | exact event_m1_has_identifiers ].
Defined.

(** C3 as stated fails on identifiers that are present, truthy and no
    identifiers: with [event_id: true], [conversation_id: []] and
    [merchant_id: {}] the body passes the check of the required fields,
    the answer is not 400, [insert] is called, and a store that takes the
    values records the row and the answer is 200. *)
Lemma truthy_non_identifiers_pass :
  prop (Some MoreSamples.event_odd_ids) "event_id" = Some (JBool true) /\
  prop (Some MoreSamples.event_odd_ids) "conversation_id" = Some (JArr []) /\
  prop (Some MoreSamples.event_odd_ids) "merchant_id" = Some (JObj []) /\
  missing_required (Some MoreSamples.event_odd_ids) = false /\
  run (handler MoreSamples.accept_all secret (post MoreSamples.event_odd_ids)) empty_store
  = (mkResponse 200 ok_payload,
     mkWorld [row_of (Some MoreSamples.event_odd_ids) (JStr now)]
       [row_of (Some MoreSamples.event_odd_ids) (JStr now)] [] now) /\
  status (fst (run (handler strict_input secret (post MoreSamples.event_odd_ids)) empty_store))
  = 500%Z /\
  insert_calls (snd (run (handler strict_input secret (post MoreSamples.event_odd_ids))
                       empty_store))
  = [row_of (Some MoreSamples.event_odd_ids) (JStr now)].
Proof. repeat split. Qed.

End Ingestion.

(** ** The health probe *)

Module Health.

Import LogEvent.

(** C10. Whatever the request, its verb included, the health probe answers
    200 with the same three fields, the service, its status and its one
    write endpoint, and leaves the world as it was. *)
Theorem health_probe_static (W : Type) (req : VercelRequest) (w : W) :
  run (HealthProbe.handler req) w =
    (mkResponse 200
       (JObj [("service", JStr "AeroChat Conversation Logger");
              ("status", JStr "running");
              ("endpoint", JStr "POST /api/log-event")]),
     w) /\
  forall req' : VercelRequest,
    run (HealthProbe.handler req') w = run (HealthProbe.handler req) w.
Proof. split; [ | intros req' ]; reflexivity. Qed.

End Health.

(** ** The dispatcher *)

Module Dispatch.

Import ConversationLogger.

Section Dispatcher.

Variable cfg : Config.
Variable net : Transport.

(** Both environment variables are set and not empty. *)
Definition configured : bool :=
  truth (LOGGER_ENDPOINT cfg) && truth (LOGGER_API_KEY cfg).

(** A delivery that did not succeed: a status other than 200, or an
    exception of class [Exception] (a timeout, a refused connection, a
    body that cannot be serialised, ...). *)
Definition delivery_fails (d : Delivery) : Prop :=
  match d with
  | Responds status_code => status_code <> 200%Z
  | Raises e => is_Exception e = true
  end.

(** The local log entry a failed delivery leaves. *)
Definition entry_of (d : Delivery) : string :=
  match d with
  | Responds status_code => "Conversation logger received status " ++ decimal status_code
  | Raises e =>
      if is_TimeoutException e then "Conversation logger timed out"
      else "Conversation logger failed: " ++ exc_str e
  end.

Definition not_configured_entry : string :=
  "Conversation logger not configured: missing LOGGER_ENDPOINT or LOGGER_API_KEY".

Lemma is_TimeoutException_is_Exception (e : PyExc) :
  is_TimeoutException e = true -> is_Exception e = true.
Proof.
  unfold is_TimeoutException, is_Exception. destruct (exc_class e); auto; discriminate.
Qed.

Lemma _log_event_not_configured (event_data : json) (w : World) :
  configured = false ->
  run (_log_event cfg net event_data) w =
    (Returned,
     mkWorld (log w ++ [not_configured_entry])%list (posts w) (tasks w) (running_loop w)).
Proof.
  unfold configured, _log_event, run. intros H.
  apply Bool.andb_false_iff in H.
  assert (E : negb (truth (LOGGER_ENDPOINT cfg)) || negb (truth (LOGGER_API_KEY cfg)) = true).
  { destruct H as [ -> | -> ]; [ reflexivity | apply Bool.orb_true_r ]. }
  rewrite E. reflexivity.
Qed.

Lemma _log_event_failure (event_data : json) (w : World) :
  configured = true ->
  delivery_fails (net (request cfg event_data)) ->
  run (_log_event cfg net event_data) w =
    (Returned,
     mkWorld (log w ++ [entry_of (net (request cfg event_data))])%list
       (posts w ++ [request cfg event_data])%list (tasks w) (running_loop w)).
Proof.
  unfold configured, _log_event, run. intros H Hfail.
  apply Bool.andb_true_iff in H as [-> ->]. cbn [negb orb].
  unfold client_post, logger_warning, bind, get, put, ret.
  cbn [log posts tasks running_loop].
  destruct (net (request cfg event_data)) as [ status_code | e ]; cbn in Hfail |- *.
  - destruct (Z.eqb_spec status_code 200) as [ -> | _ ]; [ now elim Hfail | reflexivity ].
  - destruct (is_TimeoutException e); [ reflexivity | ]. rewrite Hfail. reflexivity.
Qed.

(** A delivery that succeeds leaves no trace in the log. *)
Lemma _log_event_success (event_data : json) (w : World) :
  configured = true ->
  net (request cfg event_data) = Responds 200 ->
  run (_log_event cfg net event_data) w =
    (Returned,
     mkWorld (log w) (posts w ++ [request cfg event_data])%list (tasks w)
       (running_loop w)).
Proof.
  unfold configured, _log_event, run. intros H Hnet.
  apply Bool.andb_true_iff in H as [-> ->]. cbn [negb orb].
  unfold client_post, logger_warning, bind, get, put, ret.
  cbn [log posts tasks running_loop]. rewrite Hnet. reflexivity.
Qed.

Lemma fire_log_inside_loop (event_data : json) (w : World) :
  running_loop w = true ->
  run (fire_log cfg net event_data) w =
    (Returned, mkWorld (log w) (posts w) (tasks w ++ [event_data])%list (running_loop w)).
Proof.
  unfold fire_log, run, create_task, bind, get, put, ret.
  destruct w as [l p t r]. cbn. intros ->. reflexivity.
Qed.

(** Without a running loop [fire_log] is over when [_log_event] is. *)
Lemma fire_log_outside_loop (event_data : json) (w : World) :
  running_loop w = false ->
  snd (run (fire_log cfg net event_data) w) = snd (run (_log_event cfg net event_data) w) /\
  fst (run (fire_log cfg net event_data) w) =
    match fst (run (_log_event cfg net event_data) w) with
    | Returned => Returned
    | Raised e => if is_Exception e then Returned else Raised e
    end.
Proof.
  unfold fire_log, run, asyncio_run, bind, get, ret. intros H.
  cbv beta iota. rewrite H.
  destruct (_log_event cfg net event_data w) as [ [ | e ] w' ]; cbn.
  - split; reflexivity.
  - destruct (is_Exception e); split; reflexivity.
Qed.

(** The unit of work ends normally and leaves one log entry, when the
    module is not configured and when the delivery fails. *)
Lemma _log_event_logs (event_data : json) (w : World) :
  (configured = true -> delivery_fails (net (request cfg event_data))) ->
  exists entry : string,
    run (_log_event cfg net event_data) w =
      (Returned,
       mkWorld (log w ++ [entry])%list
         (if configured then (posts w ++ [request cfg event_data])%list else posts w)
         (tasks w) (running_loop w)).
Proof.
  intros H. destruct configured eqn:E.
  - eexists. apply _log_event_failure; [ exact E | exact (H eq_refl) ].
  - eexists. now apply _log_event_not_configured.
Qed.

(** Without a running loop and with the module configured, the request
    has been posted and awaited when [fire_log] returns. *)
Lemma fire_log_outside_loop_posts (event_data : json) (w : World) :
  running_loop w = false -> configured = true ->
  posts (snd (run (fire_log cfg net event_data) w))
  = (posts w ++ [request cfg event_data])%list /\
  tasks (snd (run (fire_log cfg net event_data) w)) = tasks w.
Proof.
  intros Hloop Hcfg.
  rewrite (proj1 (fire_log_outside_loop event_data w Hloop)).
  unfold configured in Hcfg. apply Bool.andb_true_iff in Hcfg as [He Hk].
  unfold _log_event, run. rewrite He, Hk. cbn [negb orb].
  unfold client_post, logger_warning, bind, get, put, ret.
  cbn [log posts tasks running_loop].
  destruct (net (request cfg event_data)) as [ status_code | e ].
  - destruct (negb (status_code =? 200)%Z); split; reflexivity.
  - destruct (is_TimeoutException e); [ split; reflexivity | ].
    destruct (is_Exception e); split; reflexivity.
Qed.

(** Whatever the delivery raises being an [Exception], the unit of work
    ends normally. *)
Lemma _log_event_returns (event_data : json) (w : World) :
  (forall e, net (request cfg event_data) = Raises e -> is_Exception e = true) ->
  fst (run (_log_event cfg net event_data) w) = Returned.
Proof.
  intros H. unfold _log_event, run.
  destruct (negb (truth (LOGGER_ENDPOINT cfg)) || negb (truth (LOGGER_API_KEY cfg)));
    [ reflexivity | ].
  unfold client_post, logger_warning, bind, get, put, ret.
  destruct (net (request cfg event_data)) as [ status_code | e ].
  - destruct (negb (status_code =? 200)%Z); reflexivity.
  - destruct (is_TimeoutException e); [ reflexivity | ].
    rewrite (H e eq_refl). reflexivity.
Qed.

End Dispatcher.

(** *** The example scenarios *)

Import DispatcherSamples.

(** A refused connection, met outside any event loop, leaves its entry in
    the log and nothing for the caller. *)
Lemma refused_connection_is_logged :
  run (fire_log configured_env refusing event) outside_loop
  = (Returned,
     mkWorld ["Conversation logger failed: All connection attempts failed"]
       [request configured_env event] [] false).
Proof. reflexivity. Qed.

(** Without configuration the call logs and posts nothing. *)
Lemma not_configured_is_a_no_op :
  run (fire_log empty_env refusing event) outside_loop
  = (Returned, mkWorld [not_configured_entry] [] [] false).
Proof. reflexivity. Qed.

(** An interrupt, which is no [Exception], is not swallowed by
    [except Exception]. *)
Lemma interrupt_is_not_swallowed :
  fst (run (fire_log configured_env
              (fun _ => Raises (mkExc (BaseExceptionOnly "KeyboardInterrupt") EmptyString))
              event) outside_loop)
  = Raised (mkExc (BaseExceptionOnly "KeyboardInterrupt") EmptyString).
Proof. reflexivity. Qed.

(** Called inside a running loop, [fire_log] only queues the task: when
    it returns nothing has been posted. *)
Lemma fire_log_inside_loop_returns_first :
  run (fire_log configured_env unreachable event) inside_loop
  = (Returned, mkWorld [] [] [event] true).
Proof. reflexivity. Qed.

(** C8 fails outside a running loop. Called from synchronous code against
    an endpoint that never answers, [fire_log] returns only once the
    request has been posted and has run into its timeout: the request is
    among the posts and the timeout is in the log when the caller gets
    control back, and no task is left to run behind the caller. *)
Lemma fire_log_outside_loop_waits :
  run (fire_log configured_env unreachable event) outside_loop
  = (Returned,
     mkWorld ["Conversation logger timed out"] [request configured_env event] [] false).
Proof. reflexivity. Qed.

End Dispatch.

(** ** More on the ingestion endpoint *)

Module IngestionLaws.

Import LogEvent Ingestion.

Lemma eqb_eq : forall a b : json, Json.eqb a b = true -> a = b.
Proof.
  fix IH 1.
  intros [ | x | x | x | xs | ps ] [ | y | y | y | ys | qs ]; simpl;
    try discriminate; intros H.
  - reflexivity.
  - f_equal. now apply Bool.eqb_prop.
  - f_equal. now apply Z.eqb_eq.
  - f_equal. now apply String.eqb_eq.
  - f_equal. revert ys H.
    induction xs as [ | x xs IHxs ]; intros [ | y ys ] H; try discriminate;
      [ reflexivity | ].
    apply Bool.andb_true_iff in H as [H1 H2].
    f_equal; [ now apply IH | now apply IHxs ].
  - f_equal. revert qs H.
    induction ps as [ | [k x] ps IHps ]; intros [ | [k' y] qs ] H; try discriminate;
      [ reflexivity | ].
    apply Bool.andb_true_iff in H as [H12 H3].
    apply Bool.andb_true_iff in H12 as [H1 H2].
    apply String.eqb_eq in H1. subst k'.
    f_equal; [ f_equal; now apply IH | now apply IHps ].
Qed.

Lemma key_absent (tbl : Table) (row : Row) :
  key_present tbl row = false -> ~ In (event_id row) (map event_id tbl).
Proof.
  unfold key_present. intros H Hin.
  apply in_map_iff in Hin as (r & Heq & Hin).
  assert (E : existsb (fun r => Json.eqb (event_id r) (event_id row)) tbl = true).
  { apply existsb_exists. exists r. split; [ exact Hin | ].
    rewrite Heq. apply JsonFacts.eqb_refl. }
  rewrite E in H. discriminate.
Qed.

Section Endpoint.

Variable pg_input : coltype -> json -> option PostgrestError.t.
Variable LOGGER_API_KEY : string.

(** The four ways through the handler, as one case analysis. *)
Lemma handler_cases (req : VercelRequest) (w : World) :
  run (handler pg_input LOGGER_API_KEY req) w
  = (mkResponse 405 (error_payload "Method not allowed"), w)
  \/ run (handler pg_input LOGGER_API_KEY req) w
     = (mkResponse 401 (error_payload "Unauthorized"), w)
  \/ run (handler pg_input LOGGER_API_KEY req) w
     = (mkResponse 400
          (error_payload "Missing required fields: event_id, conversation_id, merchant_id"),
        w)
  \/ (missing_required (body req) = false /\
      exists e : PostgrestError.t,
        violation pg_input (table w) (row_of (body req) (JStr (clock w))) = Some e /\
        run (handler pg_input LOGGER_API_KEY req) w
        = (mkResponse 500 (error_payload (PostgrestError.message e)),
           after_insert w (row_of (body req) (JStr (clock w))) (Some e)))
  \/ (missing_required (body req) = false /\
      violation pg_input (table w) (row_of (body req) (JStr (clock w))) = None /\
      run (handler pg_input LOGGER_API_KEY req) w
      = (mkResponse 200 ok_payload,
         after_insert w (row_of (body req) (JStr (clock w))) None)).
Proof.
  destruct (option_eq_dec_post (method req)) as [ Hm | Hm ];
    [ | left; now apply run_not_post ].
  destruct (unauthorized LOGGER_API_KEY (authorization req)) eqn:Ha;
    [ right; left; now apply run_unauthorized | ].
  destruct (missing_required (body req)) eqn:Hb;
    [ right; right; left; now apply run_missing | ].
  rewrite (run_insert pg_input LOGGER_API_KEY req w Hm Ha Hb).
  destruct (violation pg_input (table w) (row_of (body req) (JStr (clock w)))) as [ e | ] eqn:Hv.
  - right; right; right; left. split; [ reflexivity | ]. exists e. split; reflexivity.
  - right; right; right; right. repeat split.
Qed.

(** X2. The status tells what happened to the world. With 200 the table
    and the insert calls gained the row built from the body and nothing
    else changed; with 500 the table is what it was, [insert] was called
    once and the console got the error whose message is in the answer;
    with any other status the world is what it was. *)
Theorem status_tells_effects (req : VercelRequest) (w : World) :
  (status (fst (run (handler pg_input LOGGER_API_KEY req) w)) = 200%Z ->
   snd (run (handler pg_input LOGGER_API_KEY req) w)
   = mkWorld (table w ++ [row_of (body req) (JStr (clock w))])%list
       (insert_calls w ++ [row_of (body req) (JStr (clock w))])%list
       (console w) (clock w)) /\
  (status (fst (run (handler pg_input LOGGER_API_KEY req) w)) = 500%Z ->
   exists e : PostgrestError.t,
     payload (fst (run (handler pg_input LOGGER_API_KEY req) w))
     = error_payload (PostgrestError.message e) /\
     snd (run (handler pg_input LOGGER_API_KEY req) w)
     = mkWorld (table w)
         (insert_calls w ++ [row_of (body req) (JStr (clock w))])%list
         (console w ++ [("Supabase write failed:", e)])%list (clock w)) /\
  (status (fst (run (handler pg_input LOGGER_API_KEY req) w)) <> 200%Z ->
   status (fst (run (handler pg_input LOGGER_API_KEY req) w)) <> 500%Z ->
   snd (run (handler pg_input LOGGER_API_KEY req) w) = w).
Proof.
  destruct (handler_cases req w) as [ H | [ H | [ H | [ (_ & e & _ & H) | (_ & _ & H) ] ] ] ];
    rewrite H; cbn [fst snd status payload after_insert];
    (split; [ | split ]); try discriminate; try reflexivity; try tauto.
  intros _. exists e. split; reflexivity.
Qed.

(** *** The table over many requests *)

Lemma accepted_key_is_new (tbl : Table) (row : Row) :
  violation pg_input tbl row = None -> key_present tbl row = false.
Proof.
  unfold violation, or_error, unique_error.
  repeat match goal with
         | |- match ?x with Some _ => _ | None => _ end = None -> _ =>
             destruct x; [ discriminate | ]
         end.
  destruct (key_present tbl row); [ discriminate | reflexivity ].
Qed.

Lemma keys_stay_distinct_step (req : VercelRequest) (w : World) :
  NoDup (map event_id (table w)) ->
  NoDup (map event_id (table (snd (run (handler pg_input LOGGER_API_KEY req) w)))).
Proof.
  intros Hnd.
  destruct (handler_cases req w) as [ H | [ H | [ H | [ (_ & e & _ & H) | (_ & Hv & H) ] ] ] ];
    rewrite H; cbn [snd after_insert table]; try exact Hnd.
  rewrite map_app. apply NoDup_app; [ exact Hnd | repeat constructor; intros [] | ].
  intros a Ha [ <- | [] ].
  exact (key_absent _ _ (accepted_key_is_new _ _ Hv) Ha).
Qed.

Lemma run_invoke (now : string) (req : VercelRequest) (w : World) :
  run (Server.invoke pg_input LOGGER_API_KEY now req) w
  = run (handler pg_input LOGGER_API_KEY req)
      (mkWorld (table w) (insert_calls w) (console w) now).
Proof. reflexivity. Qed.

Lemma run_serve_cons (now : string) (req : VercelRequest)
  (rest : list (string * VercelRequest)) (w : World) :
  run (Server.serve pg_input LOGGER_API_KEY ((now, req) :: rest)) w
  = (fst (run (Server.invoke pg_input LOGGER_API_KEY now req) w)
       :: fst (run (Server.serve pg_input LOGGER_API_KEY rest)
                 (snd (run (Server.invoke pg_input LOGGER_API_KEY now req) w))),
     snd (run (Server.serve pg_input LOGGER_API_KEY rest)
            (snd (run (Server.invoke pg_input LOGGER_API_KEY now req) w)))).
Proof.
  unfold run. cbn [Server.serve]. unfold bind, ret.
  destruct (Server.invoke pg_input LOGGER_API_KEY now req w) as [r w1]. cbn [fst snd].
  destruct (Server.serve pg_input LOGGER_API_KEY rest w1) as [rs w2]. reflexivity.
Qed.

(** X3. The primary key holds over any run of the function: when the
    [event_id]s of the table are pairwise distinct, they still are after
    any sequence of requests, whatever these requests are. *)
Theorem keys_stay_distinct (reqs : list (string * VercelRequest)) (w : World) :
  NoDup (map event_id (table w)) ->
  NoDup (map event_id
           (table (snd (run (Server.serve pg_input LOGGER_API_KEY reqs) w)))).
Proof.
  revert w. induction reqs as [ | [now req] rest IH ]; intros w Hnd.
  - exact Hnd.
  - rewrite run_serve_cons. cbn [snd]. apply IH.
    rewrite run_invoke. now apply keys_stay_distinct_step.
Qed.

(** How many of the answers carry the status [code]. *)
Definition answered (code : Z) (rs : list VercelResponse) : nat :=
  length (filter (fun r => (status r =? code)%Z) rs).

Lemma answered_cons (code : Z) (r : VercelResponse) (rs : list VercelResponse) :
  answered code (r :: rs)
  = ((if (status r =? code)%Z then 1 else 0) + answered code rs)%nat.
Proof. unfold answered. cbn [filter]. destruct (status r =? code)%Z; reflexivity. Qed.

Lemma step_accounting (req : VercelRequest) (w : World) :
  exists added : list Row,
    table (snd (run (handler pg_input LOGGER_API_KEY req) w)) = (table w ++ added)%list /\
    length added = answered 200 [fst (run (handler pg_input LOGGER_API_KEY req) w)] /\
    length (insert_calls (snd (run (handler pg_input LOGGER_API_KEY req) w)))
    = (length (insert_calls w)
       + answered 200 [fst (run (handler pg_input LOGGER_API_KEY req) w)]
       + answered 500 [fst (run (handler pg_input LOGGER_API_KEY req) w)])%nat /\
    length (console (snd (run (handler pg_input LOGGER_API_KEY req) w)))
    = (length (console w)
       + answered 500 [fst (run (handler pg_input LOGGER_API_KEY req) w)])%nat.
Proof.
  destruct (handler_cases req w) as [ H | [ H | [ H | [ (_ & e & _ & H) | (_ & _ & H) ] ] ] ];
    rewrite H; cbn [fst snd after_insert table insert_calls console].
  1-4: exists []; rewrite app_nil_r, ?length_app; cbn; repeat split; lia.
  eexists [_]. rewrite ?length_app. cbn. repeat split; lia.
Qed.

(** X4. Over any sequence of requests there is one answer per request; the
    table keeps its rows where they were and gains one row per answer 200,
    at its end; [insert] is called once per answer 200 or 500; the
    console gets one line per answer 500. *)
Theorem one_row_per_success (reqs : list (string * VercelRequest)) (w : World) :
  length (fst (run (Server.serve pg_input LOGGER_API_KEY reqs) w)) = length reqs /\
  exists added : list Row,
    table (snd (run (Server.serve pg_input LOGGER_API_KEY reqs) w))
    = (table w ++ added)%list /\
    length added = answered 200 (fst (run (Server.serve pg_input LOGGER_API_KEY reqs) w)) /\
    length (insert_calls (snd (run (Server.serve pg_input LOGGER_API_KEY reqs) w)))
    = (length (insert_calls w)
       + answered 200 (fst (run (Server.serve pg_input LOGGER_API_KEY reqs) w))
       + answered 500 (fst (run (Server.serve pg_input LOGGER_API_KEY reqs) w)))%nat /\
    length (console (snd (run (Server.serve pg_input LOGGER_API_KEY reqs) w)))
    = (length (console w)
       + answered 500 (fst (run (Server.serve pg_input LOGGER_API_KEY reqs) w)))%nat.
Proof.
  revert w. induction reqs as [ | [now req] rest IH ]; intros w.
  - split; [ reflexivity | ]. exists []. cbn. rewrite app_nil_r. repeat split; lia.
  - rewrite run_serve_cons. cbn [fst snd length]. rewrite run_invoke.
    set (w0 := mkWorld (table w) (insert_calls w) (console w) now).
    destruct (step_accounting req w0) as (a1 & Ht1 & Hl1 & Hi1 & Hc1).
    destruct (IH (snd (run (handler pg_input LOGGER_API_KEY req) w0)))
      as (Hlen & a2 & Ht2 & Hl2 & Hi2 & Hc2).
    split; [ now rewrite Hlen | ].
    exists (a1 ++ a2)%list. rewrite !answered_cons.
    unfold answered in Hl1, Hi1, Hc1. cbn [filter] in Hl1, Hi1, Hc1.
    rewrite Ht2, Ht1, Hi2, Hi1, Hc2, Hc1, length_app, Hl1, Hl2, <- app_assoc.
    cbn [w0 table insert_calls console].
    destruct (status (fst (run (handler pg_input LOGGER_API_KEY req) w0)) =? 200)%Z;
      destruct (status (fst (run (handler pg_input LOGGER_API_KEY req) w0)) =? 500)%Z;
      cbn [length]; repeat split; lia.
Qed.

(** *** What of the body counts *)

Lemma missing_required_ids (e1 e2 : Json.value) :
  prop e1 "event_id" = prop e2 "event_id" ->
  prop e1 "conversation_id" = prop e2 "conversation_id" ->
  prop e1 "merchant_id" = prop e2 "merchant_id" ->
  missing_required e1 = missing_required e2.
Proof.
  unfold missing_required. intros He Hc Hm. rewrite He, Hc, Hm.
  destruct (truthy (prop e2 "event_id")) eqn:E.
  - assert (T1 : truthy e1 = true).
    { rewrite <- He in E. destruct e1 as [ [ | | | | | ps ] | ]; try discriminate E.
      reflexivity. }
    assert (T2 : truthy e2 = true).
    { destruct e2 as [ [ | | | | | ps ] | ]; try discriminate E. reflexivity. }
    rewrite T1, T2. reflexivity.
  - cbn [negb]. rewrite !Bool.orb_true_r. reflexivity.
Qed.

(** X5. Only the nineteen keys that name a column count. Two bodies that
    agree on these keys get the same answer and leave the same world,
    whatever else they hold: a key without a column is dropped, it is
    neither stored nor refused. *)
Theorem other_keys_play_no_part (m h : option string) (b1 b2 : Json.value) (w : World) :
  Forall (fun c => prop b1 (col_name c) = prop b2 (col_name c)) conversation_events ->
  run (handler pg_input LOGGER_API_KEY (mkRequest m h b1)) w
  = run (handler pg_input LOGGER_API_KEY (mkRequest m h b2)) w.
Proof.
  intros H. unfold conversation_events in H.
  repeat (apply Forall_cons_iff in H as [? H]). cbn [col_name] in *.
  assert (Hrow : forall now, row_of b1 now = row_of b2 now).
  { intros now. unfold row_of.
    repeat match goal with
           | Hx : prop b1 _ = prop b2 _ |- _ => rewrite Hx; clear Hx
           end.
    reflexivity. }
  assert (Hmiss : missing_required b1 = missing_required b2)
    by now apply missing_required_ids.
  unfold handler, run. cbn [method authorization body].
  rewrite Hmiss.
  destruct (negb match m with Some m0 => m0 =? "POST" | None => false end);
    [ reflexivity | ].
  destruct (unauthorized LOGGER_API_KEY h); [ reflexivity | ].
  destruct (missing_required b2); [ reflexivity | ].
  unfold toISOString, bind, get, ret. cbv beta iota. rewrite Hrow. reflexivity.
Qed.

(** X6. A value that is falsy in JavaScript is not stored: for an
    authenticated POST request with the three identifiers, a column whose
    key holds [0], [false], the empty string or [null], or is absent,
    reaches [insert] as null, and [timestamp] as the current instant. *)
Theorem falsy_value_not_stored (req : VercelRequest) (w : World) (c : Column) :
  method req = Some "POST" ->
  authorization req = Some (bearer LOGGER_API_KEY) ->
  has_identifiers (body req) ->
  In c conversation_events ->
  truthy (prop (body req) (col_name c)) = false ->
  exists row : Row,
    insert_calls (snd (run (handler pg_input LOGGER_API_KEY req) w))
    = (insert_calls w ++ [row])%list /\
    col_value c row = default_of c (JStr (clock w)).
Proof.
  intros Hm Ha Hb Hc Hf. apply unauthorized_iff in Ha. apply has_identifiers_iff in Hb.
  exists (row_of (body req) (JStr (clock w))). split.
  - rewrite (run_insert pg_input LOGGER_API_KEY req w Hm Ha Hb). unfold after_insert.
    destruct (violation pg_input (table w) (row_of (body req) (JStr (clock w))));
      reflexivity.
  - pose proof (falsy_replaced (body req) (JStr (clock w)) Hb) as H.
    rewrite Forall_forall in H. now apply H.
Qed.

Lemma refused_is_500 (req : VercelRequest) (w : World) :
  method req = Some "POST" ->
  unauthorized LOGGER_API_KEY (authorization req) = false ->
  missing_required (body req) = false ->
  (exists e, violation pg_input (table w) (row_of (body req) (JStr (clock w))) = Some e) ->
  status (fst (run (handler pg_input LOGGER_API_KEY req) w)) = 500%Z /\
  table (snd (run (handler pg_input LOGGER_API_KEY req) w)) = table w.
Proof.
  intros Hm Ha Hb [e He].
  rewrite (run_insert pg_input LOGGER_API_KEY req w Hm Ha Hb), He. split; reflexivity.
Qed.




(** *** The credential *)

Lemma bare_key_is_not_bearer : LOGGER_API_KEY <> bearer LOGGER_API_KEY.
Proof.
  unfold bearer. intros H. apply (f_equal String.length) in H. cbn in H. lia.
Qed.

(** X8. The credential is compared as a whole. A POST request is answered
    401 exactly when its [Authorization] header is not the word [Bearer],
    one space and the secret; the secret alone, without that prefix, is
    answered 401. *)
Theorem credential_is_compared_whole (req : VercelRequest) (w : World) :
  method req = Some "POST" ->
  (status (fst (run (handler pg_input LOGGER_API_KEY req) w)) = 401%Z
   <-> authorization req <> Some (bearer LOGGER_API_KEY)) /\
  (authorization req = Some LOGGER_API_KEY ->
   status (fst (run (handler pg_input LOGGER_API_KEY req) w)) = 401%Z).
Proof.
  intros Hm.
  assert (Hbad : authorization req <> Some (bearer LOGGER_API_KEY) ->
                 status (fst (run (handler pg_input LOGGER_API_KEY req) w)) = 401%Z).
  { intros Ha. apply wrong_credential in Ha.
    rewrite (run_unauthorized pg_input LOGGER_API_KEY req w Hm Ha). reflexivity. }
  split; [ split; [ | exact Hbad ] | ].
  - intros Hs Ha. apply unauthorized_iff in Ha.
    destruct (missing_required (body req)) eqn:Hb.
    + rewrite (run_missing pg_input LOGGER_API_KEY req w Hm Ha Hb) in Hs. discriminate Hs.
    + rewrite (run_insert pg_input LOGGER_API_KEY req w Hm Ha Hb) in Hs. cbn [fst] in Hs.
      destruct (violation pg_input (table w) (row_of (body req) (JStr (clock w))));
        discriminate Hs.
  - intros Ha. apply Hbad. rewrite Ha. intros [= E]. exact (bare_key_is_not_bearer E).
Qed.

(** *** Sending a request again *)

(** X9. A request that was answered 200 is refused when it comes again,
    whenever that is: on a table that holds the row it left, the same
    request is answered 500 and the table is what it was. *)
Theorem accepted_request_is_refused_again (req : VercelRequest) (w w2 : World) :
  status (fst (run (handler pg_input LOGGER_API_KEY req) w)) = 200%Z ->
  table w2 = table (snd (run (handler pg_input LOGGER_API_KEY req) w)) ->
  status (fst (run (handler pg_input LOGGER_API_KEY req) w2)) = 500%Z /\
  table (snd (run (handler pg_input LOGGER_API_KEY req) w2)) = table w2.
Proof.
  intros Hs Ht.
  destruct (option_eq_dec_post (method req)) as [ Hm | Hm ];
    [ | rewrite (run_not_post pg_input LOGGER_API_KEY req w Hm) in Hs; discriminate Hs ].
  destruct (unauthorized LOGGER_API_KEY (authorization req)) eqn:Ha;
    [ rewrite (run_unauthorized pg_input LOGGER_API_KEY req w Hm Ha) in Hs; discriminate Hs | ].
  destruct (missing_required (body req)) eqn:Hb;
    [ rewrite (run_missing pg_input LOGGER_API_KEY req w Hm Ha Hb) in Hs; discriminate Hs | ].
  rewrite (run_insert pg_input LOGGER_API_KEY req w Hm Ha Hb) in Hs, Ht.
  cbn [fst snd] in Hs, Ht.
  destruct (violation pg_input (table w) (row_of (body req) (JStr (clock w))));
    [ discriminate Hs | ].
  cbn [after_insert table] in Ht.
  apply refused_is_500; try assumption.
  apply duplicate_refused.
  apply (key_present_in (table w2) (row_of (body req) (JStr (clock w)))).
  - rewrite Ht. apply in_or_app. right. left. reflexivity.
  - reflexivity.
Qed.

(** *** What reaches the table *)



End Endpoint.

(** *** The example scenarios *)

Import Samples MoreSamples.

Lemma keys_stay_distinct_witness :
  NoDup (map event_id (table (snd (run (Server.serve strict_input secret traffic) empty_store)))).
Proof.
  apply (keys_stay_distinct strict_input secret traffic empty_store).
  constructor.
Defined.

Lemma other_keys_play_no_part_witness :
  run (handler strict_input secret
         (mkRequest (Some "POST") (Some "Bearer s3cret") (Some event_m1_with_debug)))
    empty_store
  = run (handler strict_input secret
           (mkRequest (Some "POST") (Some "Bearer s3cret") (Some event_m1)))
      empty_store.
Proof.
  apply (other_keys_play_no_part strict_input secret (Some "POST") (Some "Bearer s3cret")
           (Some event_m1_with_debug) (Some event_m1) empty_store).
  repeat constructor.
Defined.

Lemma falsy_value_not_stored_witness :
  exists row : Row,
    insert_calls (snd (run (handler strict_input secret (post event_m2)) empty_store))
    = (insert_calls empty_store ++ [row])%list /\
    col_value response_time_ms_column row
    = default_of response_time_ms_column (JStr (clock empty_store)).
Proof.
  apply (falsy_value_not_stored strict_input secret (post event_m2) empty_store
           response_time_ms_column).
  - reflexivity.
  - reflexivity.
  - exact event_m2_has_identifiers.
  - unfold conversation_events, response_time_ms_column.
    do 16 right. left. reflexivity.
  - reflexivity.
Defined.


Lemma credential_is_compared_whole_witness :
  (status (fst (run (handler strict_input secret post_wrong_credential) empty_store)) = 401%Z
   <-> authorization post_wrong_credential <> Some (bearer secret)) /\
  (authorization post_wrong_credential = Some secret ->
   status (fst (run (handler strict_input secret post_wrong_credential) empty_store)) = 401%Z).
Proof.
  apply (credential_is_compared_whole strict_input secret post_wrong_credential empty_store).
  reflexivity.
Defined.

Lemma accepted_request_is_refused_again_witness :
  status (fst (run (handler strict_input secret (post event_m1))
                 (mkWorld (table store_with_m1) [] [] later))) = 500%Z /\
  table (snd (run (handler strict_input secret (post event_m1))
                (mkWorld (table store_with_m1) [] [] later)))
  = table (mkWorld (table store_with_m1) [] [] later).
Proof.
  apply (accepted_request_is_refused_again strict_input secret (post event_m1) empty_store
           (mkWorld (table store_with_m1) [] [] later)).
  - reflexivity.
  - reflexivity.
Defined.

End IngestionLaws.

(** ** More on the dispatcher *)

Module DispatchLaws.

Import ConversationLogger Dispatch.

Section Dispatcher.

Variable cfg : Config.
Variable net : Transport.

(** The entries one run of [_log_event] adds to the log. *)
Definition logged (event_data : json) : list string :=
  if configured cfg then
    match net (request cfg event_data) with
    | Responds status_code =>
        if (status_code =? 200)%Z then [] else [entry_of (Responds status_code)]
    | Raises e => if is_Exception e then [entry_of (Raises e)] else []
    end
  else [not_configured_entry].

(** How one run of [_log_event] ends. *)
Definition ending (event_data : json) : Outcome :=
  if configured cfg then
    match net (request cfg event_data) with
    | Responds _ => Returned
    | Raises e => if is_Exception e then Returned else Raised e
    end
  else Returned.

Lemma run_log_event (event_data : json) (w : World) :
  run (_log_event cfg net event_data) w =
    (ending event_data,
     mkWorld (log w ++ logged event_data)%list
       (posts w ++ if configured cfg then [request cfg event_data] else [])%list
       (tasks w) (running_loop w)).
Proof.
  unfold ending, logged. destruct (configured cfg) eqn:Hcfg.
  - unfold configured in Hcfg. apply Bool.andb_true_iff in Hcfg as [He Hk].
    unfold _log_event, run. rewrite He, Hk. cbn [negb orb].
    unfold client_post, logger_warning, bind, get, put, ret.
    cbn [log posts tasks running_loop].
    destruct (net (request cfg event_data)) as [ status_code | e ].
    + destruct (status_code =? 200)%Z; cbn [negb]; rewrite ?app_nil_r; reflexivity.
    + cbn [entry_of]. destruct (is_TimeoutException e) eqn:Ht.
      * rewrite (is_TimeoutException_is_Exception e Ht). reflexivity.
      * destruct (is_Exception e); rewrite ?app_nil_r; reflexivity.
  - rewrite (_log_event_not_configured cfg net event_data w Hcfg), app_nil_r. reflexivity.
Qed.

Lemma logged_at_most_one (event_data : json) : length (logged event_data) <= 1.
Proof.
  unfold logged. destruct (configured cfg); [ | cbn; lia ].
  destruct (net (request cfg event_data)) as [ status_code | e ].
  - destruct (status_code =? 200)%Z; cbn; lia.
  - destruct (is_Exception e); cbn; lia.
Qed.

(** X10. One call posts at most once and never again: whatever the
    delivery comes back with, [_log_event] leaves exactly one request more
    among the posts when the module is configured and none when it is not,
    at most one entry more in the log, and the tasks of the loop as they
    were. *)
Theorem one_post_per_call (event_data : json) (w : World) :
  posts (snd (run (_log_event cfg net event_data) w))
  = (posts w ++ if configured cfg then [request cfg event_data] else [])%list /\
  (exists entries : list string,
      log (snd (run (_log_event cfg net event_data) w)) = (log w ++ entries)%list /\
      length entries <= 1) /\
  tasks (snd (run (_log_event cfg net event_data) w)) = tasks w /\
  running_loop (snd (run (_log_event cfg net event_data) w)) = running_loop w.
Proof.
  rewrite run_log_event. cbn [snd posts log tasks running_loop].
  split; [ reflexivity | split; [ | split; reflexivity ] ].
  exists (logged event_data). split; [ reflexivity | apply logged_at_most_one ].
Qed.

(** X11. [fire_log] raises in one case only: called without a running
    loop, with the module configured, when the delivery raises something
    that is no [Exception]; it then raises that same thing. In every other
    case it returns normally. *)
Theorem fire_log_raises_only_what_is_no_exception
  (event_data : json) (w : World) (e : PyExc) :
  fst (run (fire_log cfg net event_data) w) = Raised e <->
  running_loop w = false /\ configured cfg = true /\
  net (request cfg event_data) = Raises e /\ is_Exception e = false.
Proof.
  destruct (running_loop w) eqn:Hloop.
  - rewrite (fire_log_inside_loop cfg net event_data w Hloop). cbn [fst].
    split; [ discriminate | intros (H & _); discriminate H ].
  - rewrite (proj2 (fire_log_outside_loop cfg net event_data w Hloop)), run_log_event.
    cbn [fst]. unfold ending. destruct (configured cfg).
    + destruct (net (request cfg event_data)) as [ status_code | e' ].
      * split; [ discriminate | intros (_ & _ & H & _); discriminate H ].
      * destruct (is_Exception e') eqn:He'.
        -- split; [ discriminate | ].
           intros (_ & _ & [= ->] & H). rewrite H in He'. discriminate He'.
        -- rewrite He'. split.
           ++ intros [= ->]. auto.
           ++ intros (_ & _ & [= ->] & _). reflexivity.
    + split; [ discriminate | intros (_ & H & _); discriminate H ].
Qed.

Lemma run_task_cons (event_data : json) (rest : list json) (w : World) :
  tasks w = event_data :: rest ->
  run (run_task cfg net) w
  = (tt, snd (run (_log_event cfg net event_data)
                (mkWorld (log w) (posts w) rest (running_loop w)))).
Proof.
  intros H. unfold run_task, run, bind, get, put, ret. rewrite H.
  destruct (_log_event cfg net event_data
              (mkWorld (log w) (posts w) rest (running_loop w))) as [r w'].
  reflexivity.
Qed.

(** X12. Inside a running loop [fire_log] only queues: the log and the
    posts are what they were when it returns. And the queued task, when
    the loop runs it, does what the call would have done without a loop:
    from an empty queue the world after [fire_log] and one turn of the
    loop is the world [_log_event] leaves when run at once. *)
Theorem queued_task_does_the_same (event_data : json) (w : World) :
  running_loop w = true ->
  tasks w = [] ->
  log (snd (run (fire_log cfg net event_data) w)) = log w /\
  posts (snd (run (fire_log cfg net event_data) w)) = posts w /\
  snd (run (run_task cfg net) (snd (run (fire_log cfg net event_data) w)))
  = snd (run (_log_event cfg net event_data) w).
Proof.
  intros Hloop Htasks.
  rewrite (fire_log_inside_loop cfg net event_data w Hloop). cbn [snd log posts].
  split; [ reflexivity | split; [ reflexivity | ] ].
  rewrite Htasks.
  rewrite (run_task_cons event_data []
             (mkWorld (log w) (posts w) ([] ++ [event_data])%list (running_loop w)) eq_refl).
  cbn [snd log posts running_loop].
  rewrite !run_log_event, Htasks. reflexivity.
Qed.

Lemma app_one_more {A : Type} (l : list A) (x : A) : (l ++ [x])%list <> l.
Proof.
  intros H. apply (f_equal (@length A)) in H. rewrite length_app in H. cbn in H. lia.
Qed.

(** X13. The log tells a failed delivery from a successful one.
    [_log_event] leaves the log as it was exactly when the module is
    configured and the delivery came back with status 200, or raised
    something that is no [Exception]; a status such as 201 or 204 is
    logged like a failure. *)
Theorem silent_only_on_200 (event_data : json) (w : World) :
  log (snd (run (_log_event cfg net event_data) w)) = log w <->
  configured cfg = true /\
  (net (request cfg event_data) = Responds 200 \/
   exists e, net (request cfg event_data) = Raises e /\ is_Exception e = false).
Proof.
  rewrite run_log_event. cbn [snd log]. unfold logged.
  destruct (configured cfg).
  - destruct (net (request cfg event_data)) as [ status_code | e ].
    + destruct (Z.eqb_spec status_code 200) as [ -> | Hne ].
      * rewrite app_nil_r. split; [ auto | reflexivity ].
      * split; [ intros H; now elim (app_one_more _ _ H) | ].
        intros (_ & [ [= H] | (e & H & _) ]); [ now elim Hne | discriminate H ].
    + destruct (is_Exception e) eqn:He.
      * split; [ intros H; now elim (app_one_more _ _ H) | ].
        intros (_ & [ H | (e' & [= <-] & H) ]); [ discriminate H | ].
        rewrite H in He. discriminate He.
      * rewrite app_nil_r. split; [ | reflexivity ].
        intros _. split; [ reflexivity | right; exists e; auto ].
  - split; [ intros H; now elim (app_one_more _ _ H) | intros (H & _); discriminate H ].
Qed.

End Dispatcher.

(** *** The example scenarios *)

Import DispatcherSamples.

Lemma queued_task_does_the_same_witness :
  log (snd (run (fire_log configured_env unreachable event) inside_loop)) = log inside_loop /\
  posts (snd (run (fire_log configured_env unreachable event) inside_loop))
  = posts inside_loop /\
  snd (run (run_task configured_env unreachable)
         (snd (run (fire_log configured_env unreachable event) inside_loop)))
  = snd (run (_log_event configured_env unreachable event) inside_loop).
Proof.
  apply (queued_task_does_the_same configured_env unreachable event inside_loop);
    reflexivity.
Defined.

End DispatchLaws.

(** ** What a call of [fire_log] leaves behind when the delivery fails *)

Module DispatchFailures.

Import ConversationLogger Dispatch DispatchLaws.

Section Dispatcher.

Variable cfg : Config.
Variable net : Transport.

(** The loop takes [n] turns, one task to its end per turn. *)
Fixpoint run_tasks (n : nat) : Eff World unit :=
  match n with
  | O => ret tt
  | S n' => run_task cfg net ;; run_tasks n'
  end.

(** The requests one run of [_log_event] posts. *)
Definition sent (event_data : json) : list HttpRequest :=
  if configured cfg then [request cfg event_data] else [].

(** The entry a run of [_log_event] that does not succeed leaves: that the
    module is not configured, or how the delivery failed. *)
Definition failure_entry (event_data : json) : string :=
  if configured cfg then entry_of (net (request cfg event_data))
  else not_configured_entry.

Lemma logged_failure (event_data : json) :
  (forall e, net (request cfg event_data) = Raises e -> is_Exception e = true) ->
  (configured cfg = true -> net (request cfg event_data) <> Responds 200) ->
  logged cfg net event_data = [failure_entry event_data].
Proof.
  intros Hexc Hfail. unfold logged, failure_entry.
  destruct (configured cfg); [ | reflexivity ].
  specialize (Hfail eq_refl).
  destruct (net (request cfg event_data)) as [ status_code | e ].
  - destruct (Z.eqb_spec status_code 200) as [ -> | _ ]; [ now elim Hfail | reflexivity ].
  - rewrite (Hexc e eq_refl). reflexivity.
Qed.

Lemma ending_returned (event_data : json) :
  (forall e, net (request cfg event_data) = Raises e -> is_Exception e = true) ->
  ending cfg net event_data = Returned.
Proof.
  intros Hexc. unfold ending. destruct (configured cfg); [ | reflexivity ].
  destruct (net (request cfg event_data)) as [ status_code | e ]; [ reflexivity | ].
  rewrite (Hexc e eq_refl). reflexivity.
Qed.

(** As many turns as there are tasks at the head of the queue run these
    tasks, in their order, and leave the rest queued. *)
Lemma run_tasks_head (ts rest : list json) (w : World) :
  tasks w = (ts ++ rest)%list ->
  run (run_tasks (length ts)) w =
    (tt,
     mkWorld (log w ++ flat_map (logged cfg net) ts)%list
       (posts w ++ flat_map sent ts)%list rest (running_loop w)).
Proof.
  revert w. induction ts as [ | t ts IH ]; intros w Htasks.
  - cbn in Htasks |- *. unfold run, ret. rewrite !app_nil_r, <- Htasks.
    destruct w; reflexivity.
  - cbn [length run_tasks app flat_map] in *. unfold run, bind.
    pose proof (run_task_cons cfg net t (ts ++ rest)%list w Htasks) as Hstep.
    unfold run in Hstep. rewrite Hstep.
    pose proof (run_log_event cfg net t
                  (mkWorld (log w) (posts w) (ts ++ rest)%list (running_loop w))) as Hlog.
    unfold run in Hlog. rewrite Hlog. cbn [snd log posts tasks running_loop].
    pose proof (IH (mkWorld (log w ++ logged cfg net t)%list
                      (posts w ++ if configured cfg then [request cfg t] else [])%list
                      (ts ++ rest)%list (running_loop w)) eq_refl) as Hrest.
    unfold run in Hrest. rewrite Hrest. cbn [log posts running_loop].
    unfold sent at 2. rewrite <- !app_assoc. reflexivity.
Qed.

(** C7. Let the delivery raise, if it raises, an [Exception] (a timeout, a
    refused connection, a body that cannot be serialised). Then the unit
    of work [_log_event] ends normally and [fire_log] returns normally,
    with or without a running loop. When moreover the module is not
    configured, or the delivery ends otherwise than with status 200, the
    call leaves its one entry in the local log and nothing else:
    - without a running loop, when [fire_log] returns the log has that one
      entry more, the request is among the posts if the module is
      configured, and no task is queued;
    - inside a running loop, [fire_log] queues the unit of work for this
      event behind the tasks already queued and touches neither log nor
      posts; once the loop has run the queue, the log ends with that one
      entry and the posts with the request if the module is configured.
    Without configuration the entry says that the logger is not
    configured, and the call posts nothing. *)
Theorem failures_are_logged_not_raised (event_data : json) (w : World) :
  (forall e, net (request cfg event_data) = Raises e -> is_Exception e = true) ->
  fst (run (_log_event cfg net event_data) w) = Returned /\
  fst (run (fire_log cfg net event_data) w) = Returned /\
  ((configured cfg = true -> net (request cfg event_data) <> Responds 200) ->
   (running_loop w = false ->
    run (fire_log cfg net event_data) w =
      (Returned,
       mkWorld (log w ++ [failure_entry event_data])%list
         (posts w ++ sent event_data)%list (tasks w) (running_loop w))) /\
   (running_loop w = true ->
    run (fire_log cfg net event_data) w =
      (Returned,
       mkWorld (log w) (posts w) (tasks w ++ [event_data])%list (running_loop w)) /\
    exists (earlier_entries : list string) (earlier_posts : list HttpRequest),
      run (run_tasks (S (length (tasks w)))) (snd (run (fire_log cfg net event_data) w)) =
        (tt,
         mkWorld (log w ++ earlier_entries ++ [failure_entry event_data])%list
           (posts w ++ earlier_posts ++ sent event_data)%list [] (running_loop w)))) /\
  (configured cfg = false ->
   failure_entry event_data = not_configured_entry /\ sent event_data = []).
Proof.
  intros Hexc.
  pose proof (ending_returned event_data Hexc) as Hend.
  assert (Hunit : forall w0, run (_log_event cfg net event_data) w0 =
                    (Returned,
                     mkWorld (log w0 ++ logged cfg net event_data)%list
                       (posts w0 ++ sent event_data)%list (tasks w0) (running_loop w0))).
  { intros w0. rewrite run_log_event, Hend. reflexivity. }
  split; [ rewrite Hunit; reflexivity | split; [ | split ] ].
  - destruct (running_loop w) eqn:Hloop.
    + rewrite (fire_log_inside_loop cfg net event_data w Hloop). reflexivity.
    + rewrite (proj2 (fire_log_outside_loop cfg net event_data w Hloop)), Hunit.
      reflexivity.
  - intros Hfail. pose proof (logged_failure event_data Hexc Hfail) as Hlogged. split.
    + intros Hloop.
      pose proof (fire_log_outside_loop cfg net event_data w Hloop) as [Hw Hr].
      rewrite Hunit in Hw, Hr. cbn [fst snd] in Hw, Hr. rewrite Hlogged in Hw.
      destruct (run (fire_log cfg net event_data) w) as [r w1]. cbn [fst snd] in Hw, Hr.
      now subst.
    + intros Hloop. rewrite (fire_log_inside_loop cfg net event_data w Hloop).
      split; [ reflexivity | ]. cbn [snd].
      exists (flat_map (logged cfg net) (tasks w)), (flat_map sent (tasks w)).
      pose proof (run_tasks_head (tasks w ++ [event_data])%list []
                    (mkWorld (log w) (posts w) (tasks w ++ [event_data])%list (running_loop w))
                    (eq_sym (app_nil_r _))) as Hrun.
      rewrite length_app, Nat.add_comm in Hrun. cbn [length Nat.add] in Hrun.
      rewrite Hrun. cbn [log posts running_loop].
      rewrite !flat_map_app. cbn [flat_map]. rewrite !app_nil_r, Hlogged. reflexivity.
  - intros Hcfg. unfold failure_entry, sent. rewrite Hcfg. split; reflexivity.
Qed.

End Dispatcher.

(** *** The example scenarios *)

Import DispatcherSamples.

(** A refused connection, met outside any event loop. *)
Lemma failures_are_logged_not_raised_witness :
  fst (run (_log_event configured_env refusing event) outside_loop) = Returned /\
  fst (run (fire_log configured_env refusing event) outside_loop) = Returned /\
  ((configured configured_env = true ->
    refusing (request configured_env event) <> Responds 200) ->
   (running_loop outside_loop = false ->
    run (fire_log configured_env refusing event) outside_loop =
      (Returned,
       mkWorld (log outside_loop ++ [failure_entry configured_env refusing event])%list
         (posts outside_loop ++ sent configured_env event)%list (tasks outside_loop)
         (running_loop outside_loop))) /\
   (running_loop outside_loop = true ->
    run (fire_log configured_env refusing event) outside_loop =
      (Returned,
       mkWorld (log outside_loop) (posts outside_loop)
         (tasks outside_loop ++ [event])%list (running_loop outside_loop)) /\
    exists (earlier_entries : list string) (earlier_posts : list HttpRequest),
      run (run_tasks configured_env refusing (S (length (tasks outside_loop))))
        (snd (run (fire_log configured_env refusing event) outside_loop)) =
        (tt,
         mkWorld
           (log outside_loop ++ earlier_entries
            ++ [failure_entry configured_env refusing event])%list
           (posts outside_loop ++ earlier_posts ++ sent configured_env event)%list []
           (running_loop outside_loop)))) /\
  (configured configured_env = false ->
   failure_entry configured_env refusing event = not_configured_entry /\
   sent configured_env event = []).
Proof.
  apply (failures_are_logged_not_raised configured_env refusing event outside_loop).
  intros e [= <-]. reflexivity.
Defined.

(** A timeout met inside a running loop with one task already queued:
    [fire_log] returns with nothing logged and nothing posted, and after
    two turns of the loop both timeouts are in the log. *)
Lemma timeout_inside_loop_is_logged_later :
  run (fire_log configured_env unreachable event) (mkWorld [] [] [Samples.event_m2] true)
  = (Returned, mkWorld [] [] [Samples.event_m2; event] true) /\
  run (run_tasks configured_env unreachable 2)
    (snd (run (fire_log configured_env unreachable event)
            (mkWorld [] [] [Samples.event_m2] true)))
  = (tt,
     mkWorld ["Conversation logger timed out"; "Conversation logger timed out"]
       [request configured_env Samples.event_m2; request configured_env event] [] true).
Proof. split; reflexivity. Qed.

(** Without configuration, outside a loop: one entry, nothing posted. *)
Lemma not_configured_outside_loop :
  run (fire_log empty_env refusing event) outside_loop
  = (Returned, mkWorld [failure_entry empty_env refusing event] [] [] false) /\
  failure_entry empty_env refusing event
  = "Conversation logger not configured: missing LOGGER_ENDPOINT or LOGGER_API_KEY".
Proof. split; reflexivity. Qed.

End DispatchFailures.

(** ** The dispatcher and the endpoint together *)

Module EndToEnd.

Import LogEvent Ingestion.

Section Both.

Variable pg_input : coltype -> json -> option PostgrestError.t.

(** The secret of the function and the configuration of the dispatcher. *)
Variable secret : string.
Variable cfg : ConversationLogger.Config.

Lemma received_request (event_data : json) (key : string) :
  ConversationLogger.LOGGER_API_KEY cfg = Some key ->
  Wire.received (ConversationLogger.request cfg event_data)
  = mkRequest (Some "POST") (Some ("Bearer " ++ key)) (Some event_data).
Proof.
  intros H. unfold Wire.received, ConversationLogger.request. rewrite H. reflexivity.
Qed.

Lemma received_status (event_data : json) (key : string) (w : World) :
  ConversationLogger.LOGGER_API_KEY cfg = Some key ->
  (key <> secret ->
   run (handler pg_input secret (Wire.received (ConversationLogger.request cfg event_data))) w
   = (mkResponse 401 (error_payload "Unauthorized"), w)) /\
  (key = secret ->
   missing_required (Some event_data) = false ->
   run (handler pg_input secret (Wire.received (ConversationLogger.request cfg event_data))) w
   = (match violation pg_input (table w) (row_of (Some event_data) (JStr (clock w))) with
      | Some e => mkResponse 500 (error_payload (PostgrestError.message e))
      | None => mkResponse 200 ok_payload
      end,
      after_insert w (row_of (Some event_data) (JStr (clock w)))
        (violation pg_input (table w) (row_of (Some event_data) (JStr (clock w)))))) /\
  (key = secret ->
   missing_required (Some event_data) = true ->
   run (handler pg_input secret (Wire.received (ConversationLogger.request cfg event_data))) w
   = (mkResponse 400
        (error_payload "Missing required fields: event_id, conversation_id, merchant_id"),
      w)).
Proof.
  intros Hkey. rewrite (received_request event_data key Hkey). split; [ | split ].
  - intros Hne. apply run_unauthorized; [ reflexivity | ].
    apply wrong_credential. cbn [authorization]. unfold bearer.
    intros [= E]. now elim Hne.
  - intros -> Hb. apply run_insert; [ reflexivity | | exact Hb ].
    now apply unauthorized_iff.
  - intros -> Hb. apply run_missing; [ reflexivity | | exact Hb ].
    now apply unauthorized_iff.
Qed.

(** X14. The two sides agree on the credential. The request the
    dispatcher sends with the key [key] is never answered 405, and it is
    answered 401, leaving the table alone, exactly when [key] is not the
    secret of the function. *)
Theorem shared_secret_opens_the_endpoint (event_data : json) (key : string) (w : World) :
  ConversationLogger.LOGGER_API_KEY cfg = Some key ->
  status (fst (run (handler pg_input secret
                      (Wire.received (ConversationLogger.request cfg event_data))) w))
  <> 405%Z /\
  (status (fst (run (handler pg_input secret
                       (Wire.received (ConversationLogger.request cfg event_data))) w))
   = 401%Z <-> key <> secret) /\
  (key <> secret ->
   snd (run (handler pg_input secret
               (Wire.received (ConversationLogger.request cfg event_data))) w) = w).
Proof.
  intros Hkey.
  destruct (received_status event_data key w Hkey) as (Hbad & Hgood & Hmiss).
  destruct (String.eqb_spec key secret) as [ Heq | Hne ].
  - assert (Hst : status (fst (run (handler pg_input secret
                     (Wire.received (ConversationLogger.request cfg event_data))) w))
                  <> 405%Z /\
                  status (fst (run (handler pg_input secret
                     (Wire.received (ConversationLogger.request cfg event_data))) w))
                  <> 401%Z).
    { destruct (missing_required (Some event_data)) eqn:Hb.
      - rewrite (Hmiss Heq eq_refl). split; discriminate.
      - rewrite (Hgood Heq eq_refl). cbn [fst].
        destruct (violation pg_input (table w) (row_of (Some event_data) (JStr (clock w))));
          split; discriminate. }
    destruct Hst as [H405 H401].
    split; [ exact H405 | split; [ split | ] ].
    + intros H. now elim H401.
    + intros H. now elim H.
    + intros H. now elim H.
  - rewrite (Hbad Hne). cbn [fst snd status].
    split; [ discriminate | split; [ split; auto | reflexivity ] ].
Qed.

(** X15. An event goes from [_log_event] into the table. With the
    dispatcher configured and the function as its transport: when the key
    is the secret, the event carries the three identifiers and the table
    takes its row, the row is added to the table and the dispatcher logs
    nothing; when the key is not the secret, the dispatcher logs that it
    received status 401. In both cases [_log_event] ends normally after
    one post. *)
Theorem dispatched_event_reaches_the_table
  (event_data : json) (key : string) (store : World) (w : ConversationLogger.World) :
  Dispatch.configured cfg = true ->
  ConversationLogger.LOGGER_API_KEY cfg = Some key ->
  (key = secret ->
   has_identifiers (Some event_data) ->
   violation pg_input (table store) (row_of (Some event_data) (JStr (clock store))) = None ->
   table (snd (run (handler pg_input secret
                      (Wire.received (ConversationLogger.request cfg event_data))) store))
   = (table store ++ [row_of (Some event_data) (JStr (clock store))])%list /\
   run (ConversationLogger._log_event cfg (Wire.endpoint pg_input secret store) event_data) w
   = (ConversationLogger.Returned,
      ConversationLogger.mkWorld (ConversationLogger.log w)
        (ConversationLogger.posts w ++ [ConversationLogger.request cfg event_data])%list
        (ConversationLogger.tasks w) (ConversationLogger.running_loop w))) /\
  (key <> secret ->
   run (ConversationLogger._log_event cfg (Wire.endpoint pg_input secret store) event_data) w
   = (ConversationLogger.Returned,
      ConversationLogger.mkWorld
        (ConversationLogger.log w ++ ["Conversation logger received status 401"])%list
        (ConversationLogger.posts w ++ [ConversationLogger.request cfg event_data])%list
        (ConversationLogger.tasks w) (ConversationLogger.running_loop w))).
Proof.
  intros Hcfg Hkey.
  destruct (received_status event_data key store Hkey) as (Hbad & Hgood & _).
  split.
  - intros Heq Hids Hok. apply has_identifiers_iff in Hids.
    pose proof (Hgood Heq Hids) as Hrun. rewrite Hok in Hrun.
    split; [ rewrite Hrun; reflexivity | ].
    apply Dispatch._log_event_success; [ exact Hcfg | ].
    unfold Wire.endpoint. rewrite Hrun. reflexivity.
  - intros Hne.
    assert (Hnet : Wire.endpoint pg_input secret store
                     (ConversationLogger.request cfg event_data)
                   = ConversationLogger.Responds 401).
    { unfold Wire.endpoint. rewrite (Hbad Hne). reflexivity. }
    rewrite (Dispatch._log_event_failure cfg _ event_data w Hcfg);
      rewrite Hnet; [ reflexivity | cbn; discriminate ].
Qed.

End Both.

(** *** The example scenarios *)

Import Samples DispatcherSamples.

Lemma shared_secret_opens_the_endpoint_witness :
  status (fst (run (handler strict_input secret
                      (Wire.received (ConversationLogger.request configured_env event_m1)))
                 empty_store))
  <> 405%Z /\
  (status (fst (run (handler strict_input secret
                       (Wire.received (ConversationLogger.request configured_env event_m1)))
                  empty_store))
   = 401%Z <-> "s3cret" <> secret) /\
  ("s3cret" <> secret ->
   snd (run (handler strict_input secret
               (Wire.received (ConversationLogger.request configured_env event_m1)))
          empty_store) = empty_store).
Proof.
  apply (shared_secret_opens_the_endpoint strict_input secret configured_env event_m1
           "s3cret" empty_store).
  reflexivity.
Defined.

Lemma dispatched_event_reaches_the_table_witness :
  table (snd (run (handler strict_input secret
                     (Wire.received (ConversationLogger.request configured_env event_m1)))
                empty_store))
  = (table empty_store ++ [row_of (Some event_m1) (JStr (clock empty_store))])%list /\
  run (ConversationLogger._log_event configured_env
         (Wire.endpoint strict_input secret empty_store) event_m1) outside_loop
  = (ConversationLogger.Returned,
     ConversationLogger.mkWorld (ConversationLogger.log outside_loop)
       (ConversationLogger.posts outside_loop
        ++ [ConversationLogger.request configured_env event_m1])%list
       (ConversationLogger.tasks outside_loop)
       (ConversationLogger.running_loop outside_loop)).
Proof.
  apply (proj1 (dispatched_event_reaches_the_table strict_input secret configured_env
                  event_m1 "s3cret" empty_store outside_loop eq_refl eq_refl)).
  - reflexivity.
  - exact event_m1_has_identifiers.
  - reflexivity.
Defined.

End EndToEnd.
